(** * ChongQing Identity Map: the query facade and the aggregation engine

    A shallow embedding of [questionnaire_system/api/main.py] (the two
    FastAPI endpoints [get_user_score] and [get_question_distribution])
    together with the Python primitives they rely on: [str.startswith],
    [str.replace], true division of integers, float multiplication and the
    ['.2f'] format.  The collaborators that the file imports
    ([RedisManager], [ScoringEngine], [QUESTIONS], [QuestionType]) are taken
    as parameters of the handlers.  The aggregation and scoring engine that
    feeds the store is modelled from its specification in [Engine]. *)

From Stdlib Require Import ZArith QArith Qcanon Qpower Qabs Qround Lqa Lia.
From Stdlib Require Import Ascii String DecimalString DecimalN DecimalPos.
From Stdlib Require SpecFloat.
From stdpp Require Import base option list gmap strings fin_maps.

Local Open Scope string_scope.
Local Open Scope Z_scope.

(** ** Python strings *)

Module PyStr.

(** [k.startswith(prefix)] *)
Definition startswith (k prefix : string) : bool := String.prefix prefix k.

(** [s.replace(old, new)] for a non-empty [old]: every non-overlapping
    occurrence of [old], scanning from the left, is replaced.  [skip]
    counts the characters of a matched occurrence still to be dropped. *)
Fixpoint replace_go (old new : string) (skip : nat) (s : string) : string :=
  match s with
  | EmptyString => EmptyString
  | String c s' =>
      match skip with
      | S k => replace_go old new k s'
      | O =>
          if String.prefix old s
          then new +:+ replace_go old new (String.length old - 1) s'
          else String c (replace_go old new 0 s')
      end
  end.

Definition replace (s old new : string) : string := replace_go old new 0 s.

(** What "stripping the prefix" means: the first [length prefix]
    characters are dropped, the rest of the key is kept as it is
    ([k[len(prefix):]], [str.removeprefix]). *)
Fixpoint drop_chars (n : nat) (s : string) : string :=
  match n, s with
  | S n', String _ s' => drop_chars n' s'
  | _, _ => s
  end.

Definition removeprefix (s prefix : string) : string :=
  if String.prefix prefix s then drop_chars (String.length prefix) s else s.

End PyStr.

(** ** Python floats (IEEE 754 binary64, round to nearest, ties to even) *)

Module PyFloat.

(** A float is [(-1)^neg * m * 2^e] with [0 <= m], an infinity or a NaN.
    Zero keeps its sign, as in Python ([-0.0]). *)
Inductive pyfloat :=
| Finite (neg : bool) (m : Z) (e : Z)
| Inf (neg : bool)
| NaN.

(** The fraction [n/d] ([0 <= n], [0 < d]) rounded to the nearest integer,
    a tie going to the even neighbour. *)
Definition rne (n d : Z) : Z :=
  let q := n / d in
  match 2 * (n mod d) ?= d with
  | Lt => q
  | Gt => q + 1
  | Eq => if Z.even q then q else q + 1
  end.

(** [floor (log2 (n/d))] for [0 < n] and [0 < d]. *)
Definition ilog2_frac (n d : Z) : Z :=
  let k := Z.log2 n - Z.log2 d in
  if 0 <=? k
  then (if d * 2 ^ k <=? n then k else k - 1)
  else (if d <=? n * 2 ^ (- k) then k else k - 1).

(** The fraction [(n/d) / 2^e]. *)
Definition scale2 (n d e : Z) : Z * Z :=
  if 0 <=? e then (n, d * 2 ^ e) else (n * 2 ^ (- e), d).

(** The binary64 number nearest to [(-1)^neg * n/d]: 53 significant bits,
    least exponent [-1074] (subnormals), an infinity from [2^1024] on. *)
Definition round_binary64 (neg : bool) (n d : Z) : pyfloat :=
  if n =? 0 then Finite neg 0 0 else
  let e := Z.max (ilog2_frac n d - 52) (-1074) in
  let '(n', d') := scale2 n d e in
  let m := rne n' d' in
  if m =? 0 then Finite neg 0 0
  else if 1024 <=? Z.log2 m + e then Inf neg
  else if m =? 2 ^ 53 then Finite neg (2 ^ 52) (e + 1)
  else Finite neg m e.

(** The value [m * 2^e] as a fraction. *)
Definition dyadic (m e : Z) : Z * Z :=
  if 0 <=? e then (m * 2 ^ e, 1) else (m, 2 ^ (- e)).

(** [x * y] on floats. *)
Definition float_mul (x y : pyfloat) : pyfloat :=
  match x, y with
  | NaN, _ | _, NaN => NaN
  | Inf sx, Inf sy => Inf (xorb sx sy)
  | Inf sx, Finite sy m _ | Finite sx m _, Inf sy =>
      if m =? 0 then NaN else Inf (xorb sx sy)
  | Finite sx mx ex, Finite sy my ey =>
      let '(n, d) := dyadic (mx * my) (ex + ey) in
      round_binary64 (xorb sx sy) n d
  end.

(** The float [100.0], which the integer literal [100] converts to. *)
Definition float_100 : pyfloat :=
  Eval vm_compute in round_binary64 false 100 1.

(** The number of hundredths that ['.2f'] prints for [m * 2^e]: the exact
    value times 100, rounded to the nearest integer, ties to even. *)
Definition hundredths (m e : Z) : Z :=
  let '(n, d) := dyadic (m * 100) e in rne n d.

Definition decimal (n : Z) : string :=
  NilZero.string_of_uint (N.to_uint (Z.to_N n)).

Definition digit (d : Z) : ascii := ascii_of_N (48 + Z.to_N d).

Definition sign (neg : bool) : string := if neg then "-" else "".

(** [h] hundredths printed with two decimals: the integer part, a point and
    two digits. *)
Definition two_decimals (h : Z) : string :=
  decimal (h / 100) +:+ "."
    +:+ String (digit (h mod 100 / 10)) (String (digit (h mod 10)) "").

(** [format(x, '.2f')] *)
Definition format_2f (x : pyfloat) : string :=
  match x with
  | NaN => "nan"
  | Inf neg => sign neg +:+ "inf"
  | Finite neg m e => sign neg +:+ two_decimals (hundredths m e)
  end.

(** The exact quotient [n/d] and the exact value of [m * 2^e]. *)
Definition frac (n d : Z) : Q := (inject_Z n / inject_Z d)%Q.

Definition Qval (m e : Z) : Q := (inject_Z m * 2 ^ e)%Q.

(** The same number in the Standard Library's IEEE 754 specification. *)
Definition to_spec (x : pyfloat) : SpecFloat.spec_float :=
  match x with
  | Finite neg (Zpos p) e => SpecFloat.S754_finite neg p e
  | Finite neg _ _ => SpecFloat.S754_zero neg
  | Inf neg => SpecFloat.S754_infinity neg
  | NaN => SpecFloat.S754_nan
  end.

End PyFloat.

(** ** Exceptions, the store trace and the handler monad *)

(** The exceptions that can travel through the handlers.  All of them,
    [HTTPException] included, derive from Python's [Exception]. *)
Inductive exn :=
| HTTPException (status_code : Z) (detail : string)
| ValueError
| ZeroDivisionError
| OverflowError
| OtherException (name : string).

Inductive outcome (A : Type) :=
| Return (a : A)
| Raise (e : exn).
Arguments Return {A} a.
Arguments Raise {A} e.

(** What a handler does that a caller can observe besides its result: the
    reads it sends to the shared store and the true divisions it evaluates. *)
Inductive event :=
| ReadUserAnswers (user_id : string)
| ReadQuestionStats (question_id : string)
| ReadRespondentCount (question_id : string)
| TrueDivide (a b : Z).

Definition M (A : Type) : Type := list event -> outcome A * list event.

#[global] Instance M_ret : MRet M := fun A a t => (Return a, t).

#[global] Instance M_bind : MBind M := fun A B k m t =>
  match m t with
  | (Return a, t') => k a t'
  | (Raise e, t') => (Raise e, t')
  end.

Definition raise {A} (e : exn) : M A := fun t => (Raise e, t).

Definition emit (ev : event) : M unit := fun t => (Return tt, (t ++ [ev])%list).

Definition lift {A} (o : outcome A) : M A := fun t => (o, t).

(** [try: body / except Exception as e: handler(e)].  Every constructor of
    [exn] is an [Exception], so the handler sees each of them. *)
Definition try_except {A} (body : M A) (handler : exn -> M A) : M A := fun t =>
  match body t with
  | (Return a, t') => (Return a, t')
  | (Raise e, t') => handler e t'
  end.

(** [for x in l: s = body(x, s)] *)
Fixpoint for_each {A S : Type} (l : list A) (body : A -> S -> M S) (s : S) : M S :=
  match l with
  | [] => mret s
  | x :: l' => s' ← body x s; for_each l' body s'
  end.

(** Running a handler on a fresh trace. *)
Definition run {A} (m : M A) : outcome A * list event := m [].

(** The status line FastAPI answers with: 200 for a returned body, the
    status of a raised [HTTPException], 500 for any other exception. *)
Definition http_status {A} (o : outcome A) : Z :=
  match o with
  | Return _ => 200
  | Raise (HTTPException status_code _) => status_code
  | Raise _ => 500
  end.

(** [count / total_respondents] on Python integers: the correctly rounded
    quotient, [ZeroDivisionError] for a zero divisor, [OverflowError] when
    the quotient is beyond the largest float. *)
Definition int_true_div (a b : Z) : outcome PyFloat.pyfloat :=
  if b =? 0 then Raise ZeroDivisionError
  else
    match PyFloat.round_binary64 (xorb (a <? 0) (b <? 0)) (Z.abs a) (Z.abs b) with
    | PyFloat.Inf _ => Raise OverflowError
    | q => Return q
    end.

Definition true_divide (a b : Z) : M PyFloat.pyfloat :=
  _ ← emit (TrueDivide a b); lift (int_true_div a b).

(** The number of hundredths printed for [(count / total) * 100]. *)
Definition percent_hundredths (count total : Z) : Z :=
  match int_true_div count total with
  | Return q =>
      match PyFloat.float_mul q PyFloat.float_100 with
      | PyFloat.Finite _ m e => PyFloat.hundredths m e
      | _ => 0
      end
  | Raise _ => 0
  end.

(** ** The query facade *)

Inductive QuestionType :=
| SINGLE_CHOICE
| COMBINATION
| OtherType (value : string).

#[global] Instance QuestionType_eq_dec : EqDecision QuestionType.
Proof. solve_decision. Defined.

(** An entry of [QUESTIONS]; ['options'] may be absent from the dict. *)
Record question_config := {
  cfg_type : QuestionType;
  cfg_label : string;
  cfg_options : option (list string)
}.

Record ScoreResponse (F : Type) := {
  sr_user_id : string;
  final_x : F;
  final_y : F;
  average_x : F;
  average_y : F
}.
Arguments Build_ScoreResponse {F}.

Record DistributionResponse := {
  dr_question_id : string;
  dr_label : string;
  total_respondents : Z;
  distribution : gmap string string
}.

Definition unsupported_message : string :=
  "Distribution for this question type is not supported via this endpoint.".

Section Facade.

(** [A] is what the store keeps as a user's answer to a question, [V]
    what it keeps in a field of a question's stats, [py_int] is [int(v)]
    on such a field ([None] when it raises [ValueError]); [F] is the type
    of a score coordinate. *)
Context {A V F : Type}.
Variable py_int : V -> option Z.

(** The contents of the shared store, as [RedisManager] reads them. *)
Record RedisManager := {
  user_answers : string -> option (gmap string A);
  question_stats : string -> gmap string V;
  question_respondent_count : string -> Z
}.

(** The two methods of [ScoringEngine] that the facade calls. *)
Record ScoringEngine := {
  final_axes_scores : string -> outcome (F * F);
  average_axes_scores : outcome (F * F)
}.

Variable redis : RedisManager.
Variable scoring : ScoringEngine.
Variable QUESTIONS : gmap string question_config.
(** [str(e)] *)
Variable str_exn : exn -> string.

Definition get_user_answers (user_id : string) : M (option (gmap string A)) :=
  _ ← emit (ReadUserAnswers user_id); mret (user_answers redis user_id).

Definition get_question_stats (question_id : string) : M (gmap string V) :=
  _ ← emit (ReadQuestionStats question_id); mret (question_stats redis question_id).

Definition get_question_respondent_count (question_id : string) : M Z :=
  _ ← emit (ReadRespondentCount question_id);
  mret (question_respondent_count redis question_id).

(** Python truth of what [get_user_answers] returns: [None] and the empty
    dict are false. *)
Definition truthy (answers : option (gmap string A)) : bool :=
  match answers with
  | Some d => negb (bool_decide (d = ∅))
  | None => false
  end.

Definition get_user_score (user_id : string) : M (ScoreResponse F) :=
  try_except
    (answers ← get_user_answers user_id;
     if negb (truthy answers)
     then raise (HTTPException 404 "User not found")
     else
       final ← lift (final_axes_scores scoring user_id);
       avg ← lift (average_axes_scores scoring);
       mret (Build_ScoreResponse user_id final.1 final.2 avg.1 avg.2))
    (fun e => raise (HTTPException 500 (str_exn e))).

(** [int(stats.get(key, 0))] *)
Definition stat_count (stats : gmap string V) (key : string) : M Z :=
  match stats !! key with
  | None => mret 0
  | Some v =>
      match py_int v with
      | Some n => mret n
      | None => raise ValueError
      end
  end.

Definition prefix_of (t : QuestionType) : string :=
  if decide (t = SINGLE_CHOICE) then "option:" else "combo:".

(** [[k.replace(prefix, "") for k in stats if k.startswith(prefix)]] *)
Definition discovered_options (stats : gmap string V) (prefix : string) : list string :=
  (fun k => PyStr.replace k prefix "")
    <$> filter (fun k => PyStr.startswith k prefix = true) (map_to_list stats).*1.

(** [f"{percentage:.2f}%"] for [percentage = (count / total) * 100] *)
Definition render_percentage (percentage : PyFloat.pyfloat) : string :=
  PyFloat.format_2f percentage +:+ "%".

(** Lines 89 to 103: the body of the handler for a SINGLE_CHOICE or
    COMBINATION question with respondents.  The dicts [stats], [vote_counts]
    and [distribution] are finite maps: the order in which Python walks
    through them has no bearing on the dict that is returned. *)
Definition tally (t : QuestionType) (options : list string)
    (stats : gmap string V) (total_respondents : Z) : M (gmap string string) :=
  let prefix := prefix_of t in
  let options :=
    if decide (t = COMBINATION) then discovered_options stats prefix else options in
  vote_counts ← for_each options
    (fun option (vote_counts : gmap string Z) =>
       count ← stat_count stats (prefix +:+ option);
       mret (<[option := count]> vote_counts)) ∅;
  for_each (map_to_list vote_counts)
    (fun oc (distribution : gmap string string) =>
       quotient ← true_divide oc.2 total_respondents;
       let percentage := PyFloat.float_mul quotient PyFloat.float_100 in
       mret (<[oc.1 := render_percentage percentage]> distribution)) ∅.

Definition get_question_distribution (question_id : string) : M DistributionResponse :=
  match QUESTIONS !! question_id with
  | None => raise (HTTPException 404 "Question not found")
  | Some question_config =>
      stats ← get_question_stats question_id;
      total_respondents ← get_question_respondent_count question_id;
      distribution ←
        (if 0 <? total_respondents then
           if bool_decide (cfg_type question_config = SINGLE_CHOICE
                           ∨ cfg_type question_config = COMBINATION)
           then tally (cfg_type question_config)
                      (default [] (cfg_options question_config))
                      stats total_respondents
           else mret {[ "error" := unsupported_message ]}
         else mret ∅);
      mret {| dr_question_id := question_id;
              dr_label := cfg_label question_config;
              total_respondents := total_respondents;
              distribution := distribution |}
  end.

End Facade.

(** ** What the distribution handler computes, as pure functions *)

Section FacadeSpec.

Context {V : Type}.
Variable py_int : V -> option Z.
Variable stats : gmap string V.
Variable prefix : string.
Variable total : Z.

(** [int(stats.get(prefix + option, 0))] as a partial function. *)
Definition count_of (o : string) : option Z :=
  match stats !! (prefix +:+ o) with
  | None => Some 0
  | Some v => py_int v
  end.

(** The percentage string of a count, when the division goes through. *)
Definition percent_of (count : Z) : option string :=
  match int_true_div count total with
  | Return q => Some (render_percentage (PyFloat.float_mul q PyFloat.float_100))
  | Raise _ => None
  end.

Definition entry_of (o : string) : option string :=
  count_of o ≫= percent_of.

Definition vote_body (o : string) (vote_counts : gmap string Z) : M (gmap string Z) :=
  count ← stat_count py_int stats (prefix +:+ o);
  mret (<[o := count]> vote_counts).

Definition percent_body (oc : string * Z) (distribution : gmap string string)
    : M (gmap string string) :=
  quotient ← true_divide oc.2 total;
  mret (<[oc.1 := render_percentage (PyFloat.float_mul quotient PyFloat.float_100)]>
          distribution).

End FacadeSpec.

(** The list the first loop of a tally walks through. *)
Definition effective_options {V} (ty : QuestionType) (options : list string)
    (stats : gmap string V) : list string :=
  if decide (ty = COMBINATION)
  then discovered_options stats (prefix_of ty) else options.

(** The distribution field as the handler computes it, before the
    response is put together. *)
Definition distribution_of {V} (py_int : V -> option Z) (cfg : question_config)
    (stats : gmap string V) (total : Z) : M (gmap string string) :=
  if 0 <? total then
    if bool_decide (cfg_type cfg = SINGLE_CHOICE ∨ cfg_type cfg = COMBINATION)
    then tally py_int (cfg_type cfg) (default [] (cfg_options cfg)) stats total
    else mret {[ "error" := unsupported_message ]}
  else mret ∅.

(** The two store reads of a distribution request. *)
Definition reads (question_id : string) : list event :=
  [ReadQuestionStats question_id; ReadRespondentCount question_id].

(** The options that the claim describes: the stats keys that carry the
    prefix, with that prefix stripped. *)
Definition prefix_stripped_options {V} (stats : gmap string V) (prefix : string)
    : gset string :=
  list_to_set
    ((fun k => PyStr.removeprefix k prefix)
       <$> filter (fun k => PyStr.startswith k prefix = true) (map_to_list stats).*1).

(** The sum of [f] over the counts of a vote tally. *)
Definition sum_with (f : Z → Z) (vote_counts : gmap string Z) : Z :=
  map_fold (fun _ c acc => f c + acc) 0 vote_counts.

(** A number of hundredths as a percentage. *)
Definition percent_value (h : Z) : Q := (inject_Z h / 100)%Q.

(** The rounding tolerance of a sum of [n] printed percentages: for each of
    them half a unit of the last printed place, and a margin for the two
    float roundings that precede the printing. *)
Definition rounding_tolerance (n : nat) : Q :=
  (inject_Z (Z.of_nat n) * ((1 # 200) + (1 # 10 ^ 13)))%Q.

(** ** Reading a printed percentage back *)

(** The value of a decimal digit. *)
Definition digit_value (a : ascii) : option Z :=
  let n := Z.of_N (N_of_ascii a) in
  if (48 <=? n) && (n <=? 57) then Some (n - 48) else None.

(** The text before the first point and the text after it. *)
Fixpoint split_point (s : string) : option (string * string) :=
  match s with
  | EmptyString => None
  | String c s' =>
      if Ascii.eqb c "." then Some (EmptyString, s')
      else match split_point s' with
           | Some (a, b) => Some (String c a, b)
           | None => None
           end
  end.

(** The number of hundredths that a text of the form [digits.dd%] denotes. *)
Definition parse_percent (s : string) : option Z :=
  match split_point s with
  | Some (whole, String d1 (String d2 "%")) =>
      match NilZero.uint_of_string whole, digit_value d1, digit_value d2 with
      | Some u, Some a, Some b => Some (Z.of_N (N.of_uint u) * 100 + 10 * a + b)
      | _, _, _ => None
      end
  | _ => None
  end.

(** The sum, in hundredths, of the percentages of a distribution. *)
Definition percent_total (distribution : gmap string string) : option Z :=
  map_fold (fun _ s acc =>
              match parse_percent s, acc with
              | Some h, Some a => Some (h + a)
              | _, _ => None
              end) (Some 0) distribution.

(** ** Sample data: the catalog and the store of the specification's example *)

Module Sample.

(** [q1] is the single-choice question of the worked example; [q2] is a
    combination question and [q3] a question of a reserved type. *)
Definition catalog : gmap string question_config :=
  {[ "q1" := {| cfg_type := SINGLE_CHOICE; cfg_label := "District";
                cfg_options := Some ["a"; "b"] |};
     "q2" := {| cfg_type := COMBINATION; cfg_label := "Dishes";
                cfg_options := None |};
     "q3" := {| cfg_type := OtherType "scale"; cfg_label := "Spice level";
                cfg_options := None |} ]}.

(** The store after [u1] answered [a] and [u2] answered [b] to [q1]. *)
Definition store : @RedisManager string Z :=
  {| user_answers := fun u =>
       if decide (u = "u1") then Some {[ "q1" := "a" ]}
       else if decide (u = "u2") then Some {[ "q1" := "b" ]}
       else None;
     question_stats := fun q =>
       if decide (q = "q1") then {[ "option:a" := 1; "option:b" := 1 ]} else ∅;
     question_respondent_count := fun q =>
       if decide (q = "q1") then 2 else 0 |}.

(** The vote counts of [q1] in that store. *)
Definition vote_counts : gmap string Z := {[ "a" := 1; "b" := 1 ]}.

(** A store in which one respondent of [q2] chose an option whose label
    contains the text [combo:]. *)
Definition combo_store : @RedisManager string Z :=
  {| user_answers := fun _ => None;
     question_stats := fun q =>
       if decide (q = "q2") then {[ "combo:acombo:b" := 3 ]} else ∅;
     question_respondent_count := fun q =>
       if decide (q = "q2") then 3 else 0 |}.

(** A store in which [q3] has respondents. *)
Definition scale_store : @RedisManager string Z :=
  {| user_answers := fun _ => None;
     question_stats := fun _ => ∅;
     question_respondent_count := fun q =>
       if decide (q = "q3") then 4 else 0 |}.

Definition engine : @ScoringEngine Z :=
  {| final_axes_scores := fun _ => Return (1, 0);
     average_axes_scores := Return (1, 1) |}.

(** A rendering of [str(e)]. *)
Definition str_exn (e : exn) : string :=
  match e with
  | HTTPException _ detail => detail
  | ValueError => "ValueError"
  | ZeroDivisionError => "division by zero"
  | OverflowError => "integer division result too large for a float"
  | OtherException name => name
  end.

End Sample.

(** * The aggregation and scoring engine *)

Module Engine.

(** Modelled from the spec: an entry of an Answer Record, the selected
    option of a SINGLE_CHOICE question or the selected options of a
    COMBINATION question. *)
Inductive answer :=
| Single (choice : string)
| Combination (choices : list string).

(** Modelled from the spec: the Question Catalog ([config/questions.py] is
    not among the sources).  A question has a type and, per option, the
    contribution [(dx, dy)] to the two axes; coordinates are exact
    rationals. *)
Record question := {
  q_type : QuestionType;
  q_weights : gmap string (Qc * Qc)
}.

Definition vadd (a b : Qc * Qc) : Qc * Qc := ((a.1 + b.1)%Qc, (a.2 + b.2)%Qc).

Definition weight (q : question) (o : string) : Qc * Qc :=
  default (0%Qc, 0%Qc) (q_weights q !! o).

(** Modelled from the spec: what one answered question adds to the score
    (section 4.2, additive policy): nothing for a question
    the catalog does not know, the weight of the chosen option for
    SINGLE_CHOICE, the sum of the weights of the chosen options for
    COMBINATION. *)
Definition contribution (catalog : gmap string question) (question_id : string)
    (a : answer) : Qc * Qc :=
  match catalog !! question_id with
  | None => (0%Qc, 0%Qc)
  | Some q =>
      match q_type q, a with
      | SINGLE_CHOICE, Single o => weight q o
      | COMBINATION, Combination os =>
          foldr (fun o acc => vadd (weight q o) acc) (0%Qc, 0%Qc) os
      | _, _ => (0%Qc, 0%Qc)
      end
  end.

(** Modelled from the spec: the Scoring Engine ([backend/scoring_engine.py]
    is not among the sources), [score(answers) -> (x, y)], the unweighted
    sum of the contributions of the answered questions. *)
Definition score (catalog : gmap string question) (answers : gmap string answer)
    : Qc * Qc :=
  map_fold (fun question_id a acc => vadd (contribution catalog question_id a) acc)
           (0%Qc, 0%Qc) answers.

(** Modelled from the spec: the Answer Store, [put(user_id, answers) ->
    previous_answers_or_none]; the new record replaces the old one. *)
Definition put (store : gmap string (gmap string answer)) (user_id : string)
    (answers : gmap string answer)
    : option (gmap string answer) * gmap string (gmap string answer) :=
  (store !! user_id, <[user_id := answers]> store).

(** Modelled from the spec: the Global Aggregate, the running sums of the
    current scores and the number of users that have one. *)
Record GlobalAggregate := {
  sum_x : Qc;
  sum_y : Qc;
  user_count : nat
}.

(** Modelled from the spec: steps 1 and 2 of the Aggregator's [apply], the
    ones that act on the Global Aggregate (steps 3 and 4 update the
    Question Stats, which [global_average] does not read).  Step 1 takes the
    old score out of the sums, or counts a new user when there is none;
    step 2 adds the new score. *)
Definition apply (g : GlobalAggregate) (old_score : option (Qc * Qc))
    (new_score : Qc * Qc) : GlobalAggregate :=
  let g1 :=
    match old_score with
    | Some old => {| sum_x := (sum_x g - old.1)%Qc;
                     sum_y := (sum_y g - old.2)%Qc;
                     user_count := user_count g |}
    | None => {| sum_x := sum_x g; sum_y := sum_y g;
                 user_count := S (user_count g) |}
    end in
  {| sum_x := (sum_x g1 + new_score.1)%Qc;
     sum_y := (sum_y g1 + new_score.2)%Qc;
     user_count := user_count g1 |}.

Definition count_Qc (n : nat) : Qc := Qc_of_Z (Z.of_nat n).

(** Modelled from the spec: [global_average() -> (x, y)], the sums divided
    by the user count, or "no data" ([None]) when no user has a score. *)
Definition global_average (g : GlobalAggregate) : option (Qc * Qc) :=
  match user_count g with
  | O => None
  | S _ => Some ((sum_x g / count_Qc (user_count g))%Qc,
                 (sum_y g / count_Qc (user_count g))%Qc)
  end.

(** Modelled from the spec: the Answer Store (at most one record per user)
    together with the Global Aggregate derived from it. *)
Record system := {
  store : gmap string (gmap string answer);
  aggregate : GlobalAggregate
}.

Definition initial : system :=
  {| store := ∅; aggregate := {| sum_x := 0%Qc; sum_y := 0%Qc; user_count := 0 |} |}.

(** Modelled from the spec: one submission, as the data flow of the
    overview has it: the Answer Store takes the record and hands back the
    previous one, the Scoring Engine scores both, the Aggregator applies the
    difference. *)
Definition submit (catalog : gmap string question) (st : system)
    (user_id : string) (answers : gmap string answer) : system :=
  let '(previous, store') := put (store st) user_id answers in
  {| store := store';
     aggregate := apply (aggregate st) (score catalog <$> previous)
                        (score catalog answers) |}.

Definition submit_all (catalog : gmap string question)
    (submissions : list (string * gmap string answer)) : system :=
  foldl (fun st s => submit catalog st s.1 s.2) initial submissions.

(** The ground truth: the current Answer Record of every user who has ever
    submitted is the last one that the user sent. *)
Definition current_records (submissions : list (string * gmap string answer))
    : gmap string (gmap string answer) :=
  list_to_map (reverse submissions).

(** The sum of [f] over the records. *)
Definition total (f : gmap string answer → Qc)
    (records : gmap string (gmap string answer)) : Qc :=
  map_fold (fun _ a acc => (f a + acc)%Qc) 0%Qc records.

(** The arithmetic mean of the scores of the records, computed from
    scratch. *)
Definition mean_score (catalog : gmap string question)
    (records : gmap string (gmap string answer)) : option (Qc * Qc) :=
  match size records with
  | O => None
  | S _ =>
      Some ((total (fun a => (score catalog a).1) records / count_Qc (size records))%Qc,
            (total (fun a => (score catalog a).2) records / count_Qc (size records))%Qc)
  end.

(** The Global Aggregate holds the sums and the number of the stored
    records. *)
Definition consistent (catalog : gmap string question) (st : system) : Prop :=
  sum_x (aggregate st) = total (fun a => (score catalog a).1) (store st)
  ∧ sum_y (aggregate st) = total (fun a => (score catalog a).2) (store st)
  ∧ user_count (aggregate st) = size (store st).

(** A result with its coordinates as plain fractions. *)
Definition as_Q (o : option (Qc * Qc)) : option (Q * Q) :=
  (fun p => (this p.1, this p.2)) <$> o.

(** The catalog of the worked example: [a] weighs [(1, 0)] and [b] weighs
    [(0, 1)]. *)
Definition sample_weights : gmap string question :=
  {[ "q1" := {| q_type := SINGLE_CHOICE;
                q_weights := {[ "a" := (1%Qc, 0%Qc); "b" := (0%Qc, 1%Qc) ]} |} ]}.

End Engine.

(** * The model on concrete inputs *)

(** [str.replace] removes every occurrence, [startswith] looks at the front
    only. *)
Example replace_prefix_only :
  PyStr.replace "combo:a,b" "combo:" "" = "a,b"
  ∧ PyStr.removeprefix "combo:a,b" "combo:" = "a,b".
Proof. split; reflexivity. Qed.

Example replace_every_occurrence :
  PyStr.replace "combo:acombo:b" "combo:" "" = "ab"
  ∧ PyStr.removeprefix "combo:acombo:b" "combo:" = "acombo:b".
Proof. split; reflexivity. Qed.

Example replace_non_overlapping : PyStr.replace "aXXXb" "XX" "y" = "ayXb".
Proof. reflexivity. Qed.

Example startswith_front :
  PyStr.startswith "combo:x" "combo:" = true
  ∧ PyStr.startswith "option:combo:x" "combo:" = false.
Proof. split; reflexivity. Qed.

(** The rounding agrees with the Standard Library's specification of IEEE
    754 division and multiplication in binary64, on normal, subnormal and
    overflowing quotients. *)
Example round_agrees_one_third :
  PyFloat.to_spec (PyFloat.round_binary64 false 1 3)
    = SpecFloat.SFdiv 53 1024 (SpecFloat.S754_finite false 1 0)
                              (SpecFloat.S754_finite false 3 0).
Proof. vm_compute. reflexivity. Qed.

Example round_agrees_large :
  PyFloat.to_spec (PyFloat.round_binary64 true (10 ^ 40 + 1) 7)
    = SpecFloat.SFdiv 53 1024
        (SpecFloat.S754_finite true (Z.to_pos (10 ^ 40 + 1)) 0)
        (SpecFloat.S754_finite false 7 0).
Proof. vm_compute. reflexivity. Qed.

Example round_agrees_subnormal :
  PyFloat.to_spec (PyFloat.round_binary64 false 7 (10 ^ 320))
    = SpecFloat.SFdiv 53 1024 (SpecFloat.S754_finite false 7 0)
        (SpecFloat.S754_finite false (Z.to_pos (10 ^ 320)) 0).
Proof. vm_compute. reflexivity. Qed.

Example round_agrees_overflow :
  PyFloat.to_spec (PyFloat.round_binary64 false (18 * 10 ^ 308) 10)
    = SpecFloat.SFdiv 53 1024
        (SpecFloat.S754_finite false (Z.to_pos (18 * 10 ^ 308)) 0)
        (SpecFloat.S754_finite false 10 0).
Proof. vm_compute. reflexivity. Qed.

Example largest_float :
  PyFloat.round_binary64 false (2 ^ 1024 - 2 ^ 970 - 1) 1
    = PyFloat.Finite false (2 ^ 53 - 1) 971
  ∧ PyFloat.round_binary64 false (2 ^ 1024 - 2 ^ 970) 1 = PyFloat.Inf false.
Proof. split; vm_compute; reflexivity. Qed.

Example mul_agrees_one_third :
  PyFloat.to_spec
    (PyFloat.float_mul (PyFloat.round_binary64 false 1 3) PyFloat.float_100)
    = SpecFloat.SFmul 53 1024
        (PyFloat.to_spec (PyFloat.round_binary64 false 1 3))
        (PyFloat.to_spec PyFloat.float_100).
Proof. vm_compute. reflexivity. Qed.

(** [int / int], [* 100] and ['.2f'] on some counts: a third, a tie that
    goes to the even neighbour, a negative zero, an overflow. *)
Example percent_one_third : percent_of 3 1 = Some "33.33%".
Proof. reflexivity. Qed.

Example percent_tie_to_even : percent_of 800 1 = Some "0.12%".
Proof. reflexivity. Qed.

Example percent_negative_zero : percent_of (10 ^ 400) (-1) = Some "-0.00%".
Proof. vm_compute. reflexivity. Qed.

Example true_div_overflow : int_true_div (10 ^ 400) 1 = Raise OverflowError.
Proof. vm_compute. reflexivity. Qed.

Example true_div_by_zero : int_true_div 1 0 = Raise ZeroDivisionError.
Proof. reflexivity. Qed.

(** The worked example of the distribution endpoint. *)
Example distribution_q1 :
  (run (get_question_distribution Some Sample.store Sample.catalog "q1")).1
    = Return {| dr_question_id := "q1"; dr_label := "District";
                total_respondents := 2;
                distribution := {[ "a" := "50.00%"; "b" := "50.00%" ]} |}.
Proof. vm_compute. reflexivity. Qed.

(** The worked example of the aggregation engine: [u1] answers [a], [u2]
    answers [b], then [u1] changes to [b]. *)
Example average_after_two_users :
  Engine.as_Q (Engine.global_average
    (Engine.aggregate
       (Engine.submit_all Engine.sample_weights
          [("u1", {[ "q1" := Engine.Single "a" ]});
           ("u2", {[ "q1" := Engine.Single "b" ]})])))
    = Some ((1 # 2)%Q, (1 # 2)%Q).
Proof. vm_compute. reflexivity. Qed.

Example average_after_resubmission :
  Engine.as_Q (Engine.global_average
    (Engine.aggregate
       (Engine.submit_all Engine.sample_weights
          [("u1", {[ "q1" := Engine.Single "a" ]});
           ("u2", {[ "q1" := Engine.Single "b" ]});
           ("u1", {[ "q1" := Engine.Single "b" ]})])))
    = Some (0%Q, 1%Q).
Proof. vm_compute. reflexivity. Qed.

(** * Accuracy of the float model *)

Section FloatAccuracy.

Import PyFloat.

Lemma rne_spec n d : 0 < d -> - d <= 2 * (rne n d * d - n) <= d.
Proof.
  intros Hd. unfold rne.
  pose proof (Z.div_mod n d ltac:(lia)) as Hdm.
  pose proof (Z.mod_pos_bound n d Hd) as Hr.
  destruct (Z.compare_spec (2 * (n mod d)) d) as [Heq|Hlt|Hgt].
  - destruct (Z.even (n / d)); nia.
  - nia.
  - nia.
Qed.

Lemma rne_nonneg n d : 0 <= n -> 0 < d -> 0 <= rne n d.
Proof.
  intros Hn Hd. unfold rne.
  assert (0 <= n / d) by (apply Z.div_pos; lia).
  destruct (2 * (n mod d) ?= d); [destruct (Z.even (n / d))|..]; lia.
Qed.

Lemma inject_Z_pos d : 0 < d -> (0 < inject_Z d)%Q.
Proof. intros. change 0%Q with (inject_Z 0). by rewrite <- Zlt_Qlt. Qed.

Lemma frac_mul n d : 0 < d -> (frac n d * inject_Z d == inject_Z n)%Q.
Proof.
  intros Hd. unfold frac. field.
  pose proof (inject_Z_pos d Hd). lra.
Qed.

Lemma rne_error n d :
  0 < d -> (Qabs (inject_Z (rne n d) - frac n d) <= 1 # 2)%Q.
Proof.
  intros Hd. pose proof (rne_spec n d Hd) as [Hlo Hhi].
  pose proof (frac_mul n d Hd) as Hx. pose proof (inject_Z_pos d Hd) as HD.
  rewrite Zle_Qle in Hlo, Hhi.
  assert (Hinj : (inject_Z (2 * (rne n d * d - n))
                  == 2 * (inject_Z (rne n d) * inject_Z d - inject_Z n))%Q).
  { unfold Z.sub. rewrite inject_Z_mult, inject_Z_plus, inject_Z_mult, inject_Z_opp.
    reflexivity. }
  rewrite Hinj in Hlo, Hhi. rewrite inject_Z_opp in Hlo. clear Hinj.
  apply Qabs_Qle_condition.
  generalize dependent (frac n d). generalize dependent (inject_Z d).
  generalize dependent (inject_Z (rne n d)). generalize dependent (inject_Z n).
  intros N r D Hlo Hhi HD x Hx.
  split.
  - destruct (Qlt_le_dec (r - x) (- (1 # 2))) as [Hlt|Hge]; [exfalso|exact Hge].
    apply (Qmult_lt_compat_r _ _ D HD) in Hlt. lra.
  - destruct (Qlt_le_dec (1 # 2) (r - x)) as [Hlt|Hge]; [exfalso|exact Hge].
    apply (Qmult_lt_compat_r _ _ D HD) in Hlt. lra.
Qed.

Local Open Scope Q_scope.

Lemma pow2_pos e : 0 < 2 ^ e.
Proof. apply Qpower_0_lt. reflexivity. Qed.

Lemma pow2_add a b : 2 ^ (a + b) == 2 ^ a * 2 ^ b.
Proof. apply Qpower_plus. discriminate. Qed.

Lemma pow2_opp a : 2 ^ (- a) == / 2 ^ a.
Proof. apply Qpower_opp. Qed.

Lemma pow2_inject k : (0 <= k)%Z -> inject_Z (2 ^ k) == 2 ^ k.
Proof. intros Hk. by rewrite Zpower_Qpower. Qed.

Lemma pow2_le a b : (a <= b)%Z -> 2 ^ a <= 2 ^ b.
Proof. intros Hab. apply Qpower_le_compat_l; [exact Hab|discriminate]. Qed.

Lemma pow2_lt_inv a b : 2 ^ a < 2 ^ b -> (a < b)%Z.
Proof. intros Hab. apply (Qpower_lt_compat_l_inv 2); [exact Hab|reflexivity]. Qed.

Lemma pow2_succ a : 2 ^ (a + 1) == 2 * 2 ^ a.
Proof. rewrite pow2_add. change (2 ^ 1) with 2. ring. Qed.

Lemma pow2_cancel a : 2 ^ a * 2 ^ (- a) == 1.
Proof.
  rewrite pow2_opp. field. pose proof (pow2_pos a). lra.
Qed.

Lemma scale2_frac n d e n' d' :
  (0 < d)%Z -> scale2 n d e = (n', d') ->
  (0 < d')%Z /\ frac n' d' * 2 ^ e == frac n d.
Proof.
  intros Hd. unfold scale2. pose proof (pow2_pos e) as HP.
  pose proof (inject_Z_pos d Hd) as HD.
  destruct (Z.leb_spec 0 e) as [He|He]; intros [= <- <-].
  - assert (0 < 2 ^ e)%Z as Hp by (by apply Z.pow_pos_nonneg).
    split; [lia|]. unfold frac.
    rewrite inject_Z_mult, (pow2_inject e He). field. lra.
  - split; [done|]. unfold frac.
    rewrite inject_Z_mult, (pow2_inject (- e)) by lia.
    pose proof (pow2_cancel e) as Hc.
    transitivity (inject_Z n / inject_Z d * (2 ^ e * 2 ^ (- e))); [field; lra|].
    rewrite Hc. ring.
Qed.

Lemma dyadic_frac m e n d :
  dyadic m e = (n, d) -> (0 < d)%Z /\ frac n d == Qval m e.
Proof.
  unfold dyadic, Qval, frac.
  destruct (Z.leb_spec 0 e) as [He|He]; intros [= <- <-].
  - split; [done|]. rewrite inject_Z_mult, (pow2_inject e He).
    change (inject_Z 1) with 1. field.
  - assert (0 < 2 ^ (- e))%Z as Hp by (apply Z.pow_pos_nonneg; lia).
    split; [done|]. rewrite (pow2_inject (- e)) by lia.
    rewrite pow2_opp. pose proof (pow2_pos e).
    field. lra.
Qed.

Lemma log2_bounds n :
  (0 < n)%Z -> 2 ^ Z.log2 n <= inject_Z n /\ inject_Z n < 2 ^ (Z.log2 n + 1).
Proof.
  intros Hn. pose proof (Z.log2_spec n Hn) as [Hlo Hhi].
  pose proof (Z.log2_nonneg n) as Hl.
  rewrite <- (pow2_inject (Z.log2 n)) by done.
  rewrite <- (pow2_inject (Z.log2 n + 1)) by lia.
  rewrite <- Zle_Qle, <- Zlt_Qlt. replace (Z.log2 n + 1)%Z with (Z.succ (Z.log2 n)) by lia.
  done.
Qed.

Lemma frac_ge n d x :
  (0 < d)%Z -> x * inject_Z d <= inject_Z n -> x <= frac n d.
Proof.
  intros Hd Hx. unfold frac. apply Qle_shift_div_l; [by apply inject_Z_pos|done].
Qed.

Lemma frac_lt n d x :
  (0 < d)%Z -> frac n d < x -> inject_Z n < x * inject_Z d.
Proof.
  intros Hd Hx. pose proof (inject_Z_pos d Hd) as HD.
  pose proof (frac_mul n d Hd) as Hm.
  apply (Qmult_lt_compat_r _ _ _ HD) in Hx. lra.
Qed.

Lemma ilog2_frac_lower n d :
  (0 < n)%Z -> (0 < d)%Z -> 2 ^ ilog2_frac n d <= frac n d.
Proof.
  intros Hn Hd. unfold ilog2_frac.
  pose proof (log2_bounds n Hn) as [Hn1 Hn2].
  pose proof (log2_bounds d Hd) as [Hd1 Hd2].
  pose proof (inject_Z_pos d Hd) as HD.
  set (k := (Z.log2 n - Z.log2 d)%Z).
  assert (Hweak : 2 ^ (k - 1) <= frac n d).
  { apply frac_ge; [done|].
    pose proof (pow2_pos (k - 1)) as HP.
    apply (Qmult_lt_compat_r _ _ _ HP) in Hd2.
    rewrite <- pow2_add in Hd2.
    replace (Z.log2 d + 1 + (k - 1))%Z with (Z.log2 n) in Hd2 by (unfold k; lia).
    lra. }
  destruct (Z.leb_spec 0 k) as [Hk|Hk].
  - destruct (Z.leb_spec (d * 2 ^ k) n) as [Ht|Ht]; [|exact Hweak].
    apply frac_ge; [done|]. rewrite Zle_Qle, inject_Z_mult, pow2_inject in Ht by done.
    lra.
  - destruct (Z.leb_spec d (n * 2 ^ (- k))) as [Ht|Ht]; [|exact Hweak].
    apply frac_ge; [done|].
    rewrite Zle_Qle, inject_Z_mult, pow2_inject in Ht by lia.
    pose proof (pow2_pos k) as HP. pose proof (pow2_cancel k) as Hc.
    assert (0 <= 2 ^ k) as HP0 by lra.
    pose proof (Qmult_le_compat_r _ _ _ Ht HP0) as Hm.
    assert (inject_Z n * 2 ^ (- k) * 2 ^ k == inject_Z n) as Hn'.
    { transitivity (inject_Z n * (2 ^ k * 2 ^ (- k))); [ring|]. rewrite Hc. ring. }
    lra.
Qed.

Lemma ilog2_frac_upper n d :
  (0 < n)%Z -> (0 < d)%Z -> frac n d < 2 ^ (ilog2_frac n d + 1).
Proof.
  intros Hn Hd. unfold ilog2_frac.
  pose proof (log2_bounds n Hn) as [Hn1 Hn2].
  pose proof (log2_bounds d Hd) as [Hd1 Hd2].
  pose proof (inject_Z_pos d Hd) as HD.
  set (k := (Z.log2 n - Z.log2 d)%Z).
  assert (Hdiv : forall x, inject_Z n < x * inject_Z d -> frac n d < x).
  { intros x Hx. unfold frac. by apply Qlt_shift_div_r. }
  assert (Hweak : frac n d < 2 ^ (k + 1)).
  { apply Hdiv. pose proof (pow2_pos (k + 1)) as HP.
    assert (0 <= 2 ^ (k + 1)) as HP0 by lra.
    pose proof (Qmult_le_compat_r _ _ _ Hd1 HP0) as Hm.
    rewrite <- pow2_add in Hm.
    replace (Z.log2 d + (k + 1))%Z with (Z.log2 n + 1)%Z in Hm by (unfold k; lia).
    lra. }
  destruct (Z.leb_spec 0 k) as [Hk|Hk].
  - destruct (Z.leb_spec (d * 2 ^ k) n) as [Ht|Ht]; [exact Hweak|].
    replace (k - 1 + 1)%Z with k by lia. apply Hdiv.
    rewrite Zlt_Qlt, inject_Z_mult, pow2_inject in Ht by done. lra.
  - destruct (Z.leb_spec d (n * 2 ^ (- k))) as [Ht|Ht]; [exact Hweak|].
    replace (k - 1 + 1)%Z with k by lia. apply Hdiv.
    rewrite Zlt_Qlt, inject_Z_mult, pow2_inject in Ht by lia.
    pose proof (pow2_pos k) as HP. pose proof (pow2_cancel k) as Hc.
    pose proof (Qmult_lt_compat_r _ _ _ HP Ht) as Hm.
    assert (inject_Z n * 2 ^ (- k) * 2 ^ k == inject_Z n) as Hn'.
    { transitivity (inject_Z n * (2 ^ k * 2 ^ (- k))); [ring|]. rewrite Hc. ring. }
    lra.
Qed.

Lemma ilog2_frac_lt n d k :
  (0 < n)%Z -> (0 < d)%Z -> frac n d < 2 ^ k -> (ilog2_frac n d < k)%Z.
Proof.
  intros Hn Hd Hlt. apply pow2_lt_inv.
  eapply Qle_lt_trans; [by apply ilog2_frac_lower|done].
Qed.

Lemma scale2_nonneg n d e n' d' :
  (0 <= n)%Z -> scale2 n d e = (n', d') -> (0 <= n')%Z.
Proof.
  intros Hn. unfold scale2.
  destruct (0 <=? e)%Z; intros [= <- <-]; [done|].
  apply Z.mul_nonneg_nonneg; [done|]. apply Z.pow_nonneg. lia.
Qed.

Lemma dyadic_nonneg m e n d :
  (0 <= m)%Z -> dyadic m e = (n, d) -> (0 <= n)%Z.
Proof.
  intros Hm. unfold dyadic.
  destruct (0 <=? e)%Z; intros [= <- <-]; [|done].
  apply Z.mul_nonneg_nonneg; [done|]. apply Z.pow_nonneg. lia.
Qed.

Lemma frac_nonneg n d : (0 <= n)%Z -> (0 < d)%Z -> 0 <= frac n d.
Proof.
  intros Hn Hd. apply frac_ge; [done|]. rewrite Qmult_0_l.
  change 0 with (inject_Z 0). by rewrite <- Zle_Qle.
Qed.

(** Rounding a fraction below [2^k] to binary64 gives a finite float that
    is at most [2^(k-54)] away from it. *)
Lemma round_binary64_error neg n d k :
  (0 <= n)%Z -> (0 < d)%Z -> frac n d < 2 ^ k -> (-1021 <= k <= 1023)%Z ->
  exists m e, round_binary64 neg n d = Finite neg m e /\ (0 <= m)%Z
              /\ Qabs (Qval m e - frac n d) <= 2 ^ (k - 54).
Proof.
  intros Hn Hd Hlt Hk. unfold round_binary64.
  pose proof (pow2_pos (k - 54)) as Hpk.
  destruct (Z.eqb_spec n 0) as [->|Hn0].
  { exists 0%Z, 0%Z. split; [done|]. split; [done|].
    unfold Qval, frac. setoid_replace (inject_Z 0 * 2 ^ 0 - inject_Z 0 / inject_Z d) with 0
      using relation Qeq.
    - simpl. lra.
    - change (inject_Z 0) with 0. unfold Qdiv. ring. }
  assert (0 < n)%Z as Hn' by lia.
  pose proof (ilog2_frac_lt n d k Hn' Hd Hlt) as Hil.
  set (e0 := Z.max (ilog2_frac n d - 52) (-1074)).
  assert (e0 <= k - 53)%Z as He0 by (unfold e0; lia).
  destruct (scale2 n d e0) as [n' d'] eqn:Hs.
  pose proof (scale2_nonneg _ _ _ _ _ Hn Hs) as Hn'0.
  apply scale2_frac in Hs as [Hd' Hx']; [|done].
  set (m := rne n' d').
  pose proof (rne_nonneg n' d' Hn'0 Hd') as Hm0. fold m in Hm0.
  pose proof (rne_error n' d' Hd') as Herr. fold m in Herr.
  apply Qabs_Qle_condition in Herr as [Hlo Hhi].
  pose proof (pow2_pos e0) as HP.
  pose proof (pow2_le e0 (k - 53) He0) as HPk.
  pose proof (pow2_succ (k - 54)) as Hsucc.
  replace (k - 54 + 1)%Z with (k - 53)%Z in Hsucc by lia.
  assert (0 <= 2 ^ e0) as HP0 by lra.
  pose proof (Qmult_le_compat_r _ _ _ Hlo HP0) as Hlo'.
  pose proof (Qmult_le_compat_r _ _ _ Hhi HP0) as Hhi'.
  assert (Hval : Qabs (Qval m e0 - frac n d) <= 2 ^ (k - 54)).
  { apply Qabs_Qle_condition. unfold Qval. split; lra. }
  destruct (Z.eqb_spec m 0) as [Hm|Hm].
  { exists 0%Z, 0%Z. split; [done|]. split; [done|].
    unfold Qval in *. rewrite Hm in Hval.
    setoid_replace (inject_Z 0 * 2 ^ 0) with (inject_Z 0 * 2 ^ e0)
      using relation Qeq by (change (inject_Z 0) with 0; ring).
    exact Hval. }
  assert (0 < m)%Z as Hmpos by lia.
  destruct (Z.leb_spec 1024 (Z.log2 m + e0)) as [Hov|Hov].
  { exfalso.
    assert (inject_Z m * 2 ^ e0 < 2 ^ (k + 1)) as Hmk.
    { pose proof (pow2_succ k) as Hk1. pose proof (pow2_pos k).
      assert (2 ^ (k - 54) <= 2 ^ k) by (apply pow2_le; lia).
      lra. }
    assert (inject_Z m < 2 ^ (k + 1 - e0)) as Hm2.
    { replace (k + 1 - e0)%Z with ((k + 1) + - e0)%Z by lia.
      rewrite pow2_add. pose proof (pow2_pos (- e0)) as HPn.
      pose proof (pow2_cancel e0) as Hc.
      apply (Qmult_lt_compat_r _ _ _ HPn) in Hmk.
      assert (inject_Z m * 2 ^ e0 * 2 ^ (- e0) == inject_Z m) as Hm'.
      { transitivity (inject_Z m * (2 ^ e0 * 2 ^ (- e0))); [ring|]. rewrite Hc. ring. }
      lra. }
    rewrite <- pow2_inject, <- Zlt_Qlt in Hm2 by lia.
    apply Z.log2_lt_pow2 in Hm2; lia. }
  destruct (Z.eqb_spec m (2 ^ 53)) as [Hm53|Hm53].
  { exists (2 ^ 52)%Z, (e0 + 1)%Z. split; [done|]. split; [done|].
    unfold Qval in *. rewrite Hm53 in Hval.
    setoid_replace (inject_Z (2 ^ 52) * 2 ^ (e0 + 1)) with (inject_Z (2 ^ 53) * 2 ^ e0)
      using relation Qeq.
    - exact Hval.
    - rewrite pow2_succ.
      change (inject_Z (2 ^ 53)) with (2 * inject_Z (2 ^ 52)). ring. }
  exists m, e0. done.
Qed.

Lemma Qval_100 : Qval 7036874417766400 (-46) == 100.
Proof. reflexivity. Qed.

Lemma Qval_mul m1 e1 m2 e2 :
  Qval (m1 * m2) (e1 + e2) == Qval m1 e1 * Qval m2 e2.
Proof. unfold Qval. rewrite inject_Z_mult, pow2_add. ring. Qed.

Lemma hundredths_error m e :
  Qabs (inject_Z (hundredths m e) - 100 * Qval m e) <= 1 # 2.
Proof.
  unfold hundredths. destruct (dyadic (m * 100) e) as [n d] eqn:Hdy.
  apply dyadic_frac in Hdy as [Hd Hfr].
  pose proof (rne_error n d Hd) as Herr. rewrite Hfr in Herr.
  assert (Qval (m * 100) e == 100 * Qval m e) as Hv.
  { unfold Qval. rewrite inject_Z_mult. change (inject_Z 100) with 100. ring. }
  by rewrite Hv in Herr.
Qed.

Lemma hundredths_nonneg m e : (0 <= m)%Z -> (0 <= hundredths m e)%Z.
Proof.
  intros Hm. unfold hundredths. destruct (dyadic (m * 100) e) as [n d] eqn:Hdy.
  assert (0 <= m * 100)%Z as Hm100 by lia.
  pose proof (dyadic_nonneg (m * 100) e n d Hm100 Hdy).
  apply dyadic_frac in Hdy as [Hd _]. by apply rne_nonneg.
Qed.

Lemma percent_accuracy c t :
  (0 <= c <= t)%Z -> (0 < t)%Z ->
  percent_of t c = Some (two_decimals (percent_hundredths c t) +:+ "%")
  /\ (0 <= percent_hundredths c t)%Z
  /\ Qabs (inject_Z (percent_hundredths c t) - 10000 * frac c t)
       <= (1 # 2) + (1 # 2 ^ 38).
Proof.
  intros Hc Ht. unfold percent_of, percent_hundredths, int_true_div.
  replace (t =? 0)%Z with false by (symmetry; apply Z.eqb_neq; lia).
  replace (c <? 0)%Z with false by (symmetry; apply Z.ltb_ge; lia).
  replace (t <? 0)%Z with false by (symmetry; apply Z.ltb_ge; lia).
  rewrite !Z.abs_eq by lia. simpl xorb.
  assert (frac c t <= 1) as Hx1.
  { unfold frac. apply Qle_shift_div_r; [by apply inject_Z_pos|].
    rewrite Qmult_1_l, <- Zle_Qle. lia. }
  pose proof (frac_nonneg c t ltac:(lia) Ht) as Hx0.
  destruct (round_binary64_error false c t 1) as (m1 & e1 & -> & Hm1 & Herr1);
    [lia|done|change (2 ^ 1) with 2; lra|lia|].
  change (2 ^ (1 - 54)) with (1 # 9007199254740992) in Herr1.
  apply Qabs_Qle_condition in Herr1 as [Hlo1 Hhi1].
  unfold float_mul, float_100. cbv beta iota. simpl xorb.
  destruct (dyadic (m1 * 7036874417766400) (e1 + -46)) as [n2 d2] eqn:Hdy.
  assert (0 <= m1 * 7036874417766400)%Z as Hm100 by lia.
  pose proof (dyadic_nonneg _ _ _ _ Hm100 Hdy) as Hn2.
  apply dyadic_frac in Hdy as [Hd2 Hfr2].
  rewrite Qval_mul, Qval_100 in Hfr2.
  assert (frac n2 d2 < 2 ^ 7) as Hlt2.
  { rewrite Hfr2. change (2 ^ 7) with 128. lra. }
  destruct (round_binary64_error false n2 d2 7) as (m2 & e2 & -> & Hm2 & Herr2);
    [done|done|done|lia|].
  rewrite Hfr2 in Herr2. change (2 ^ (7 - 54)) with (1 # 140737488355328) in Herr2.
  apply Qabs_Qle_condition in Herr2 as [Hlo2 Hhi2].
  pose proof (hundredths_error m2 e2) as Herr3.
  apply Qabs_Qle_condition in Herr3 as [Hlo3 Hhi3].
  split; [done|]. split; [by apply hundredths_nonneg|].
  apply Qabs_Qle_condition.
  generalize dependent (inject_Z (hundredths m2 e2)).
  generalize dependent (Qval m2 e2). generalize dependent (Qval m1 e1).
  generalize dependent (frac c t).
  intros x Hx1 Hx0 v1 Hlo1 Hhi1 _ v2 Hlo2 Hhi2 h Hlo3 Hhi3.
  change (1 # 2 ^ 38) with (1 # 274877906944).
  split; lra.
Qed.

End FloatAccuracy.

(** * Properties of the facade *)

Ltac unfold_M :=
  unfold true_divide, mbind, M_bind, mret, M_ret, raise, lift, emit in *.

Section FacadeLoops.

Context {V : Type}.
Variable py_int : V -> option Z.
Variable stats : gmap string V.
Variable prefix : string.
Variable total : Z.

Lemma stat_count_run key t :
  stat_count py_int stats key t =
    match stats !! key with
    | None => (Return 0, t)
    | Some v => match py_int v with
                | Some n => (Return n, t)
                | None => (Raise ValueError, t)
                end
    end.
Proof.
  unfold stat_count. destruct (stats !! key) as [v|]; [|done].
  by destruct (py_int v).
Qed.

Lemma vote_body_run o vc t :
  vote_body py_int stats prefix o vc t =
    match count_of py_int stats prefix o with
    | Some c => (Return (<[o := c]> vc), t)
    | None => (Raise ValueError, t)
    end.
Proof.
  unfold vote_body, count_of. unfold_M. rewrite stat_count_run.
  destruct (stats !! (prefix +:+ o)) as [v|]; [|done].
  by destruct (py_int v).
Qed.

Lemma vote_loop_Return opts : ∀ vc0 vc t t',
  for_each opts (vote_body py_int stats prefix) vc0 t = (Return vc, t') →
  t' = t
  ∧ (∀ o, o ∈ opts → is_Some (count_of py_int stats prefix o))
  ∧ (∀ o, vc !! o = if decide (o ∈ opts) then count_of py_int stats prefix o else vc0 !! o).
Proof.
  induction opts as [|x opts IH]; intros vc0 vc t t' Hrun; simpl in Hrun.
  - unfold_M. injection Hrun as <- <-. split; [done|]. split.
    + intros o Ho. by apply elem_of_nil in Ho.
    + intros o. rewrite decide_False; [done|]. apply not_elem_of_nil.
  - unfold mbind, M_bind in Hrun. rewrite vote_body_run in Hrun.
    destruct (count_of py_int stats prefix x) as [c|] eqn:Hc; [|done].
    apply IH in Hrun as (-> & Hall & Hlk). split; [done|]. split.
    + intros o [->|Ho]%elem_of_cons; [by rewrite Hc|by apply Hall].
    + intros o. rewrite Hlk.
      destruct (decide (o ∈ opts)) as [Ho|Ho].
      * rewrite decide_True; [done|]. by apply elem_of_cons; right.
      * destruct (decide (o = x)) as [->|Hne].
        -- rewrite lookup_insert_eq, decide_True; [done|]. by apply elem_of_cons; left.
        -- rewrite lookup_insert_ne by done.
           rewrite decide_False; [done|]. by intros [?|?]%elem_of_cons.
Qed.

Lemma vote_loop_total opts : ∀ vc0 t,
  (∀ o, o ∈ opts → is_Some (count_of py_int stats prefix o)) →
  ∃ vc, for_each opts (vote_body py_int stats prefix) vc0 t = (Return vc, t).
Proof.
  induction opts as [|x opts IH]; intros vc0 t Hall; simpl.
  - by eexists.
  - unfold mbind, M_bind. rewrite vote_body_run.
    destruct (Hall x) as [c Hc]; [by apply elem_of_cons; left|]. rewrite Hc.
    apply IH. intros o Ho. apply Hall. by apply elem_of_cons; right.
Qed.

Lemma percent_body_run oc d t :
  percent_body total oc d t =
    match int_true_div oc.2 total with
    | Return q =>
        (Return (<[oc.1 := render_percentage
                              (PyFloat.float_mul q PyFloat.float_100)]> d),
         (t ++ [TrueDivide oc.2 total])%list)
    | Raise e => (Raise e, (t ++ [TrueDivide oc.2 total])%list)
    end.
Proof.
  unfold percent_body. unfold_M. by destruct (int_true_div oc.2 total).
Qed.

Lemma percent_loop_Return l : ∀ d0 d t t',
  NoDup l.*1 →
  for_each l (percent_body total) d0 t = (Return d, t') →
  t' = (t ++ ((fun oc => TrueDivide oc.2 total) <$> l))%list
  ∧ (∀ oc, oc ∈ l → is_Some (percent_of total oc.2))
  ∧ (∀ o, d !! o =
          match (list_to_map l : gmap string Z) !! o with
          | Some c => percent_of total c
          | None => d0 !! o
          end).
Proof.
  induction l as [|[k c] l IH]; intros d0 d t t' Hnd Hrun; simpl in Hrun.
  - unfold_M. injection Hrun as <- <-. split; [by rewrite app_nil_r|]. split.
    + intros oc Hoc. by apply elem_of_nil in Hoc.
    + intros o. simpl. by rewrite lookup_empty.
  - unfold mbind, M_bind in Hrun. rewrite percent_body_run in Hrun. simpl in Hrun.
    destruct (int_true_div c total) as [q|e] eqn:Hq; [|done].
    apply NoDup_cons in Hnd as [Hk Hnd].
    apply IH in Hrun as (-> & Hall & Hlk); [|done]. split.
    { by rewrite <- app_assoc. }
    split.
    + intros oc [->|Hoc]%elem_of_cons; [|by apply Hall].
      unfold percent_of; simpl. by rewrite Hq.
    + intros o. rewrite Hlk. simpl.
      destruct (decide (o = k)) as [->|Hne].
      * rewrite (not_elem_of_list_to_map_1 l k Hk).
        rewrite !lookup_insert_eq. unfold percent_of. by rewrite Hq.
      * by rewrite !lookup_insert_ne by done.
Qed.

Lemma percent_loop_total l : ∀ d0 t,
  (∀ oc, oc ∈ l → is_Some (percent_of total oc.2)) →
  ∃ d, for_each l (percent_body total) d0 t
       = (Return d, (t ++ ((fun oc => TrueDivide oc.2 total) <$> l))%list).
Proof.
  induction l as [|[k c] l IH]; intros d0 t Hall; simpl.
  - exists d0. by rewrite app_nil_r.
  - unfold mbind, M_bind. rewrite percent_body_run. simpl.
    destruct (Hall (k, c)) as [s Hs]; [by apply elem_of_cons; left|].
    unfold percent_of in Hs; simpl in Hs.
    destruct (int_true_div c total) as [q|e]; [|done].
    destruct (IH (<[k := render_percentage (PyFloat.float_mul q PyFloat.float_100)]> d0)
                 ((t ++ [TrueDivide c total])%list)) as [d Hd].
    { intros oc Hoc. apply Hall. by apply elem_of_cons; right. }
    exists d. rewrite Hd. by rewrite <- app_assoc.
Qed.

End FacadeLoops.

Section FacadeFacts.

Context {A V : Type}.
Variable py_int : V -> option Z.
Variable redis : @RedisManager A V.
Variable QUESTIONS : gmap string question_config.

Lemma tally_Return ty options stats total d t t' :
  tally py_int ty options stats total t = (Return d, t') →
  (∀ o, o ∈ effective_options ty options stats →
        is_Some (entry_of py_int stats (prefix_of ty) total o))
  ∧ (∀ o, d !! o =
          if decide (o ∈ effective_options ty options stats)
          then entry_of py_int stats (prefix_of ty) total o else None).
Proof.
  unfold tally. fold (effective_options ty options stats).
  set (opts := effective_options ty options stats).
  intros Hrun. unfold mbind at 1, M_bind at 1 in Hrun.
  destruct (for_each opts _ ∅ t) as [[vc|e] t1] eqn:Hvote; [|done].
  apply (vote_loop_Return py_int stats (prefix_of ty)) in Hvote
    as (-> & Hall & Hvc).
  apply (percent_loop_Return total) in Hrun as (_ & Hpct & Hd);
    [|apply NoDup_fst_map_to_list].
  assert (Hentry : ∀ o, o ∈ opts →
            ∃ c, count_of py_int stats (prefix_of ty) o = Some c
                 ∧ vc !! o = Some c ∧ is_Some (percent_of total c)).
  { intros o Ho. destruct (Hall o Ho) as [c Hc]. exists c.
    assert (vc !! o = Some c) as Hlk.
    { rewrite Hvc, decide_True by done. done. }
    split; [done|]. split; [done|].
    apply (Hpct (o, c)). by apply elem_of_map_to_list. }
  split.
  - intros o Ho. destruct (Hentry o Ho) as (c & Hc & _ & Hp).
    unfold entry_of. by rewrite Hc.
  - intros o. rewrite Hd, list_to_map_to_list, Hvc.
    destruct (decide (o ∈ opts)) as [Ho|Ho].
    + destruct (Hentry o Ho) as (c & Hc & _ & _).
      unfold entry_of. by rewrite Hc.
    + by rewrite lookup_empty.
Qed.

Lemma tally_trace ty options stats total d t t' :
  tally py_int ty options stats total t = (Return d, t') →
  ∃ l : list (string * Z),
    t' = (t ++ ((fun oc => TrueDivide oc.2 total) <$> l))%list.
Proof.
  unfold tally. intros Hrun. unfold mbind at 1, M_bind at 1 in Hrun.
  destruct (for_each _ _ ∅ t) as [[vc|e] t1] eqn:Hvote; [|done].
  apply (vote_loop_Return py_int stats (prefix_of ty)) in Hvote as (-> & _ & _).
  apply (percent_loop_Return total) in Hrun as (-> & _ & _);
    [|apply NoDup_fst_map_to_list].
  by eexists.
Qed.

Lemma tally_total ty options stats total t :
  (∀ o, o ∈ effective_options ty options stats →
        is_Some (entry_of py_int stats (prefix_of ty) total o)) →
  ∃ d t', tally py_int ty options stats total t = (Return d, t').
Proof.
  unfold tally. fold (effective_options ty options stats).
  set (opts := effective_options ty options stats). intros Hall.
  destruct (vote_loop_total py_int stats (prefix_of ty) opts ∅ t) as [vc Hvote].
  { intros o Ho. destruct (Hall o Ho) as [s Hs]. unfold entry_of in Hs.
    destruct (count_of py_int stats (prefix_of ty) o); [by eexists|].
    by simpl in Hs. }
  pose proof Hvote as Hvote'.
  apply vote_loop_Return in Hvote' as (_ & _ & Hvc).
  destruct (percent_loop_total total (map_to_list vc) ∅ t) as [d Hd].
  { intros [o c] Hoc. apply elem_of_map_to_list in Hoc. simpl.
    rewrite Hvc in Hoc. destruct (decide (o ∈ opts)) as [Ho|Ho].
    - destruct (Hall o Ho) as [s Hs]. unfold entry_of in Hs.
      rewrite Hoc in Hs. by exists s.
    - by rewrite lookup_empty in Hoc. }
  exists d. eexists. unfold mbind at 1, M_bind at 1.
  change (for_each opts _ ∅ t)
    with (for_each opts (vote_body py_int stats (prefix_of ty)) ∅ t).
  rewrite Hvote. exact Hd.
Qed.

Lemma get_question_distribution_run question_id cfg :
  QUESTIONS !! question_id = Some cfg →
  run (get_question_distribution py_int redis QUESTIONS question_id) =
    match distribution_of py_int cfg (question_stats redis question_id)
            (question_respondent_count redis question_id) (reads question_id) with
    | (Return d, t) =>
        (Return {| dr_question_id := question_id;
                   dr_label := cfg_label cfg;
                   total_respondents := question_respondent_count redis question_id;
                   distribution := d |}, t)
    | (Raise e, t) => (Raise e, t)
    end.
Proof.
  intros Hq. unfold run, get_question_distribution. rewrite Hq.
  unfold get_question_stats, get_question_respondent_count, distribution_of, reads.
  unfold_M. simpl.
  by destruct (0 <? _); [destruct (bool_decide _)|].
Qed.

End FacadeFacts.

(** ** The score endpoint *)

Section ScoreEndpoint.

Context {A V F : Type}.
Variable redis : @RedisManager A V.
Variable scoring : @ScoringEngine F.
Variable str_exn : exn -> string.

(** Whatever happens inside the handler, the [try] turns a raised
    exception into status 500: the endpoint answers 200 or 500 only. *)
Lemma get_user_score_status user_id :
  let status := http_status (run (get_user_score redis scoring str_exn user_id)).1 in
  status = 200 ∨ status = 500.
Proof.
  unfold run, get_user_score, try_except, get_user_answers. unfold_M. simpl.
  destruct (truthy (user_answers redis user_id)); simpl; [|by right].
  destruct (final_axes_scores scoring user_id); simpl; [|by right].
  destruct (average_axes_scores scoring); simpl; [by left|by right].
Qed.

End ScoreEndpoint.

(** C2 (the code departs from the claim): for a user without an Answer
    Record the handler raises [HTTPException(404)] inside its own [try],
    whose [except Exception] clause catches it and raises
    [HTTPException(500)] with [str(e)] as detail.  The response is a 500,
    never the 404 the claim asks for. *)
Theorem get_user_score_unknown_user {A V F : Type}
    (redis : @RedisManager A V) (scoring : @ScoringEngine F)
    (str_exn : exn -> string) (user_id : string) :
  truthy (user_answers redis user_id) = false →
  run (get_user_score redis scoring str_exn user_id)
    = (Raise (HTTPException 500 (str_exn (HTTPException 404 "User not found"))),
       [ReadUserAnswers user_id]).
Proof.
  intros Hno. unfold run, get_user_score, try_except, get_user_answers.
  unfold_M. simpl. by rewrite Hno.
Qed.

Lemma get_user_score_unknown_user_witness :
  http_status
    (run (get_user_score Sample.store Sample.engine Sample.str_exn "nobody")).1 = 500.
Proof.
  rewrite (get_user_score_unknown_user Sample.store Sample.engine Sample.str_exn "nobody").
  - reflexivity.
  - reflexivity.
Defined.

(** ** The distribution endpoint *)

(** C6: a question id that the catalog does not hold is answered with
    [HTTPException(404)], and the trace of store reads is empty: neither
    the stats nor the respondent count have been fetched. *)
Theorem unknown_question_not_found {A V : Type} (py_int : V -> option Z)
    (redis : @RedisManager A V) (QUESTIONS : gmap string question_config)
    (question_id : string) :
  QUESTIONS !! question_id = None →
  run (get_question_distribution py_int redis QUESTIONS question_id)
    = (Raise (HTTPException 404 "Question not found"), [])
  ∧ http_status
      (run (get_question_distribution py_int redis QUESTIONS question_id)).1 = 404.
Proof.
  intros Hq. unfold run, get_question_distribution. rewrite Hq. done.
Qed.

Lemma unknown_question_not_found_witness :
  run (get_question_distribution Some Sample.store Sample.catalog "q9")
    = (Raise (HTTPException 404 "Question not found"), []).
Proof.
  apply (unknown_question_not_found Some Sample.store Sample.catalog "q9").
  reflexivity.
Defined.

(** C4: with a respondent count of zero the handler returns normally, the
    distribution is the empty dict, and the trace holds the two store reads
    and nothing else: no true division has been evaluated, so no
    [ZeroDivisionError] can arise. *)
Theorem zero_respondents_no_division {A V : Type} (py_int : V -> option Z)
    (redis : @RedisManager A V) (QUESTIONS : gmap string question_config)
    (question_id : string) (cfg : question_config) :
  QUESTIONS !! question_id = Some cfg →
  question_respondent_count redis question_id = 0 →
  run (get_question_distribution py_int redis QUESTIONS question_id)
    = (Return {| dr_question_id := question_id;
                 dr_label := cfg_label cfg;
                 total_respondents := 0;
                 distribution := ∅ |},
       [ReadQuestionStats question_id; ReadRespondentCount question_id])
  ∧ ∀ a b, TrueDivide a b ∉
      (run (get_question_distribution py_int redis QUESTIONS question_id)).2.
Proof.
  intros Hq Hzero.
  assert (run (get_question_distribution py_int redis QUESTIONS question_id)
    = (Return {| dr_question_id := question_id;
                 dr_label := cfg_label cfg;
                 total_respondents := 0;
                 distribution := ∅ |},
       [ReadQuestionStats question_id; ReadRespondentCount question_id])) as Hrun.
  { rewrite (get_question_distribution_run _ _ _ _ cfg Hq).
    unfold distribution_of. rewrite Hzero. reflexivity. }
  split; [exact Hrun|].
  intros a b. rewrite Hrun. simpl.
  intros Hin. repeat (apply elem_of_cons in Hin as [Hin|Hin]; [done|]).
  by apply elem_of_nil in Hin.
Qed.

Lemma zero_respondents_no_division_witness :
  (run (get_question_distribution Some Sample.store Sample.catalog "q2")).1
    = Return {| dr_question_id := "q2"; dr_label := "Dishes";
                total_respondents := 0; distribution := ∅ |}.
Proof.
  pose proof (zero_respondents_no_division Some Sample.store Sample.catalog "q2"
                {| cfg_type := COMBINATION; cfg_label := "Dishes";
                   cfg_options := None |}) as H.
  destruct H as [H _]; [reflexivity|reflexivity|].
  rewrite H. reflexivity.
Defined.

(** C5, as amended: a catalog question of a type other than SINGLE_CHOICE
    and COMBINATION that has at least one respondent is answered with the
    "unsupported" marker as its whole distribution, and no true division is
    evaluated for it. *)
Theorem unsupported_type_with_respondents {A V : Type} (py_int : V -> option Z)
    (redis : @RedisManager A V) (QUESTIONS : gmap string question_config)
    (question_id : string) (cfg : question_config) :
  QUESTIONS !! question_id = Some cfg →
  cfg_type cfg ≠ SINGLE_CHOICE →
  cfg_type cfg ≠ COMBINATION →
  0 < question_respondent_count redis question_id →
  run (get_question_distribution py_int redis QUESTIONS question_id)
    = (Return {| dr_question_id := question_id;
                 dr_label := cfg_label cfg;
                 total_respondents := question_respondent_count redis question_id;
                 distribution := {[ "error" := unsupported_message ]} |},
       [ReadQuestionStats question_id; ReadRespondentCount question_id]).
Proof.
  intros Hq Hs Hc Hpos.
  rewrite (get_question_distribution_run _ _ _ _ cfg Hq).
  unfold distribution_of.
  replace (0 <? question_respondent_count redis question_id) with true
    by (symmetry; apply Z.ltb_lt; lia).
  rewrite bool_decide_eq_false_2; [reflexivity|].
  by intros [?|?].
Qed.

Lemma unsupported_type_with_respondents_witness :
  (distribution <$>
     match (run (get_question_distribution Some Sample.scale_store
                   Sample.catalog "q3")).1 with
     | Return r => Some r
     | Raise _ => None
     end) = Some {[ "error" := unsupported_message ]}.
Proof.
  rewrite (unsupported_type_with_respondents Some Sample.scale_store Sample.catalog
             "q3" {| cfg_type := OtherType "scale"; cfg_label := "Spice level";
                     cfg_options := None |}).
  - reflexivity.
  - reflexivity.
  - discriminate.
  - discriminate.
  - reflexivity.
Defined.

(** C5, as the claim words it, fails: [q3] of the sample catalog has a
    reserved type and no respondent, and its distribution is the empty dict,
    without an ["error"] entry. *)
Lemma unsupported_type_counterexample :
  ¬ (∀ (redis : @RedisManager string Z) (QUESTIONS : gmap string question_config)
       (question_id : string) (cfg : question_config),
       QUESTIONS !! question_id = Some cfg →
       cfg_type cfg ≠ SINGLE_CHOICE →
       cfg_type cfg ≠ COMBINATION →
       ∃ r t, run (get_question_distribution Some redis QUESTIONS question_id)
                = (Return r, t)
              ∧ distribution r !! "error" = Some unsupported_message).
Proof.
  intros Hclaim.
  destruct (Hclaim Sample.store Sample.catalog "q3"
              {| cfg_type := OtherType "scale"; cfg_label := "Spice level";
                 cfg_options := None |})
    as (r & t & Hrun & Herr); [reflexivity|discriminate|discriminate|].
  vm_compute in Hrun. injection Hrun as <- _.
  vm_compute in Herr. discriminate.
Qed.

(** C10: a catalog question without respondents gets the empty distribution
    whatever its type, so two such questions of different types cannot be
    told apart by that field; and a response whose distribution is the
    "unsupported" marker implies a positive respondent count. *)
Theorem zero_respondents_any_type {A V : Type} (py_int : V -> option Z)
    (redis : @RedisManager A V) (QUESTIONS : gmap string question_config)
    (question_id : string) (cfg : question_config) :
  QUESTIONS !! question_id = Some cfg →
  (question_respondent_count redis question_id = 0 →
   ∃ r t, run (get_question_distribution py_int redis QUESTIONS question_id)
            = (Return r, t)
          ∧ distribution r = ∅)
  ∧ (∀ r t, run (get_question_distribution py_int redis QUESTIONS question_id)
              = (Return r, t) →
            distribution r = {[ "error" := unsupported_message ]} →
            0 < question_respondent_count redis question_id).
Proof.
  intros Hq. rewrite (get_question_distribution_run _ _ _ _ cfg Hq).
  unfold distribution_of. split.
  - intros ->. simpl. by eexists _, _.
  - intros r t. destruct (0 <? _) eqn:Hpos; [intros _ _; by apply Z.ltb_lt|].
    unfold_M. intros [= <- _]. simpl. intros Hd.
    apply (f_equal (fun m => m !! "error")) in Hd.
    by rewrite lookup_empty, lookup_singleton_eq in Hd.
Qed.

Lemma zero_respondents_any_type_witness :
  (∃ r t, run (get_question_distribution Some Sample.store Sample.catalog "q3")
            = (Return r, t) ∧ distribution r = ∅)
  ∧ (∃ r t, run (get_question_distribution Some Sample.store Sample.catalog "q2")
              = (Return r, t) ∧ distribution r = ∅).
Proof.
  split.
  - apply (zero_respondents_any_type Some Sample.store Sample.catalog "q3"
             {| cfg_type := OtherType "scale"; cfg_label := "Spice level";
                cfg_options := None |}); reflexivity.
  - apply (zero_respondents_any_type Some Sample.store Sample.catalog "q2"
             {| cfg_type := COMBINATION; cfg_label := "Dishes";
                cfg_options := None |}); reflexivity.
Defined.

(** A count of zero is printed as ["0.00%"] whatever the positive total. *)
Lemma percent_of_zero total : 0 < total → percent_of total 0 = Some "0.00%".
Proof.
  intros Hpos. unfold percent_of, int_true_div.
  replace (total =? 0) with false by (symmetry; apply Z.eqb_neq; lia).
  replace (total <? 0) with false by (symmetry; apply Z.ltb_ge; lia).
  reflexivity.
Qed.

Lemma single_choice_options (options : list string) {V} (stats : gmap string V) :
  effective_options SINGLE_CHOICE options stats = options.
Proof. reflexivity. Qed.

(** C9: for a SINGLE_CHOICE question with respondents, whenever the
    handler returns, the keys of the distribution are exactly the options
    that the catalog declares; a declared option without a stats field is
    printed as ["0.00%"]; no undeclared option has an entry.  The handler
    does return whenever every declared option's stored count converts with
    [int] and its quotient by the total is within the float range. *)
Theorem single_choice_declared_options {A V : Type} (py_int : V -> option Z)
    (redis : @RedisManager A V) (QUESTIONS : gmap string question_config)
    (question_id : string) (cfg : question_config) :
  QUESTIONS !! question_id = Some cfg →
  cfg_type cfg = SINGLE_CHOICE →
  0 < question_respondent_count redis question_id →
  let options := default [] (cfg_options cfg) in
  let stats := question_stats redis question_id in
  let total := question_respondent_count redis question_id in
  ((∀ o, o ∈ options → is_Some (entry_of py_int stats "option:" total o)) →
   ∃ r t, run (get_question_distribution py_int redis QUESTIONS question_id)
            = (Return r, t))
  ∧ (∀ r t, run (get_question_distribution py_int redis QUESTIONS question_id)
              = (Return r, t) →
       dom (distribution r) = list_to_set options
       ∧ (∀ o, o ∈ options → stats !! ("option:" +:+ o) = None →
               distribution r !! o = Some "0.00%")
       ∧ (∀ o, o ∉ options → distribution r !! o = None)).
Proof.
  intros Hq Hty Hpos options stats total.
  rewrite (get_question_distribution_run _ _ _ _ cfg Hq).
  unfold distribution_of. fold total stats options.
  replace (0 <? total) with true by (symmetry; apply Z.ltb_lt; lia).
  rewrite bool_decide_eq_true_2 by (by left).
  rewrite Hty. split.
  - intros Hall.
    destruct (tally_total py_int SINGLE_CHOICE options stats total
                (reads question_id)) as (d & t & Hd); [exact Hall|].
    rewrite Hd. by eexists _, _.
  - intros r t Hrun.
    destruct (tally py_int SINGLE_CHOICE options stats total (reads question_id))
      as [[d|e] t'] eqn:Htally; [|done].
    injection Hrun as <- <-. simpl.
    apply tally_Return in Htally as [Hall Hd].
    rewrite single_choice_options in Hall, Hd.
    change (prefix_of SINGLE_CHOICE) with "option:" in Hall, Hd.
    split; [|split].
    + apply set_eq. intros o. rewrite elem_of_dom, elem_of_list_to_set, Hd.
      destruct (decide (o ∈ options)) as [Ho|Ho].
      * split; [done|]. intros _. by apply Hall.
      * split; [by intros [? ?]|done].
    + intros o Ho Hnone. rewrite Hd, decide_True by done.
      unfold entry_of, count_of. rewrite Hnone. simpl.
      by apply percent_of_zero.
    + intros o Ho. by rewrite Hd, decide_False.
Qed.

Lemma single_choice_declared_options_witness :
  ∃ r t, run (get_question_distribution Some Sample.store Sample.catalog "q1")
           = (Return r, t)
         ∧ dom (distribution r) = {[ "a"; "b" ]}.
Proof.
  destruct (single_choice_declared_options Some Sample.store Sample.catalog "q1"
              {| cfg_type := SINGLE_CHOICE; cfg_label := "District";
                 cfg_options := Some ["a"; "b"] |})
    as [Htotal Hkeys]; [reflexivity|reflexivity|reflexivity|].
  destruct Htotal as (r & t & Hrun).
  { intros o Ho. simpl in Ho.
    apply elem_of_cons in Ho as [->|Ho]; [by eexists|].
    apply elem_of_cons in Ho as [->|Ho]; [by eexists|].
    by apply elem_of_nil in Ho. }
  exists r, t. split; [exact Hrun|].
  destruct (Hkeys r t Hrun) as (Hdom & _ & _). rewrite Hdom.
  simpl. set_solver.
Defined.

(** What the handler reports for a COMBINATION question: the keys of the
    distribution are the discovered options, each stats key that starts
    with ["combo:"] with all occurrences of that text removed. *)
Lemma combination_reported_options {A V : Type} (py_int : V -> option Z)
    (redis : @RedisManager A V) (QUESTIONS : gmap string question_config)
    (question_id : string) (cfg : question_config) r t :
  QUESTIONS !! question_id = Some cfg →
  cfg_type cfg = COMBINATION →
  0 < question_respondent_count redis question_id →
  run (get_question_distribution py_int redis QUESTIONS question_id) = (Return r, t) →
  dom (distribution r)
    = list_to_set (discovered_options (question_stats redis question_id) "combo:").
Proof.
  intros Hq Hty Hpos.
  rewrite (get_question_distribution_run _ _ _ _ cfg Hq).
  unfold distribution_of.
  replace (0 <? _) with true by (symmetry; apply Z.ltb_lt; lia).
  rewrite bool_decide_eq_true_2 by (by right).
  rewrite Hty.
  destruct (tally _ _ _ _ _ _) as [[d|e] t'] eqn:Htally; [|done].
  intros [= <- <-]. simpl.
  apply tally_Return in Htally as [Hall Hd].
  apply set_eq. intros o. rewrite elem_of_dom, elem_of_list_to_set, Hd.
  change (effective_options COMBINATION (default [] (cfg_options cfg))
            (question_stats redis question_id))
    with (discovered_options (question_stats redis question_id) "combo:") in *.
  destruct (decide (o ∈ _)) as [Ho|Ho].
  - split; [done|]. intros _. by apply Hall.
  - split; [by intros [? ?]|done].
Qed.

(** C7 (the code departs from the claim): three respondents of [q2] chose
    the option [acombo:b], stored under the key [combo:acombo:b].
    Stripping the prefix gives [acombo:b]; the handler's [replace] removes
    the second occurrence as well, reports the option [ab], looks its count
    up under [combo:ab] and prints ["0.00%"]. *)
Theorem combination_options_replace_all :
  ∃ r t, run (get_question_distribution Some Sample.combo_store Sample.catalog "q2")
           = (Return r, t)
         ∧ distribution r = {[ "ab" := "0.00%" ]}
         ∧ prefix_stripped_options
             (question_stats Sample.combo_store "q2") "combo:" = {[ "acombo:b" ]}
         ∧ dom (distribution r)
             ≠ prefix_stripped_options (question_stats Sample.combo_store "q2") "combo:".
Proof.
  assert (prefix_stripped_options
            (question_stats Sample.combo_store "q2") "combo:" = {[ "acombo:b" ]})
    as Hstrip by (vm_compute; reflexivity).
  rewrite Hstrip.
  eexists _, _. split; [vm_compute; reflexivity|].
  split; [reflexivity|]. split; [reflexivity|].
  intros Heq.
  assert (("ab" : string) ∈ ({[ "acombo:b" ]} : gset string)) as Hin.
  { rewrite <- Heq. apply elem_of_dom. eexists. vm_compute. reflexivity. }
  apply elem_of_singleton in Hin. discriminate.
Qed.



(** ** Half of the respondents *)

Lemma rne_exact q d : 0 < d → PyFloat.rne (q * d) d = q.
Proof.
  intros Hd. unfold PyFloat.rne.
  rewrite Z.div_mul by lia. rewrite Z.mod_mul by lia.
  assert ((2 * 0 ?= d) = Lt) as -> by (apply Z.compare_lt_iff; lia). done.
Qed.

Lemma ilog2_frac_half c : 0 < c → PyFloat.ilog2_frac c (2 * c) = -1.
Proof.
  intros Hc. unfold PyFloat.ilog2_frac. rewrite Z.log2_double by done.
  replace (Z.log2 c - Z.succ (Z.log2 c)) with (-1) by lia.
  change (0 <=? -1) with false. cbv beta iota.
  change (2 ^ (- -1)) with 2.
  replace (2 * c <=? c * 2) with true; [done|]. symmetry. apply Z.leb_le. lia.
Qed.

Lemma round_binary64_half c :
  0 < c → PyFloat.round_binary64 false c (2 * c) = PyFloat.Finite false (2 ^ 52) (-53).
Proof.
  intros Hc. unfold PyFloat.round_binary64.
  replace (c =? 0) with false by (symmetry; apply Z.eqb_neq; lia).
  rewrite ilog2_frac_half by done.
  change (Z.max (-1 - 52) (-1074)) with (-53).
  unfold PyFloat.scale2. change (0 <=? -53) with false. cbv beta iota.
  replace (c * 2 ^ (- -53)) with (2 ^ 52 * (2 * c)) by (change (2 ^ (- -53)) with (2 * 2 ^ 52); lia).
  rewrite rne_exact by lia. reflexivity.
Qed.

(** A count that is half of the respondents is printed as ["50.00%"]. *)
Lemma percent_of_half c : 0 < c → percent_of (2 * c) c = Some "50.00%".
Proof.
  intros Hc. unfold percent_of, int_true_div.
  replace (2 * c =? 0) with false by (symmetry; apply Z.eqb_neq; lia).
  replace (c <? 0) with false by (symmetry; apply Z.ltb_ge; lia).
  replace (2 * c <? 0) with false by (symmetry; apply Z.ltb_ge; lia).
  rewrite !Z.abs_eq by lia. simpl xorb.
  rewrite round_binary64_half by done. reflexivity.
Qed.

(** ** Sums over a vote tally *)

Lemma sum_with_empty f : sum_with f ∅ = 0.
Proof. unfold sum_with. by rewrite map_fold_empty. Qed.

Lemma sum_with_insert f (m : gmap string Z) i x :
  m !! i = None → sum_with f (<[i := x]> m) = f x + sum_with f m.
Proof.
  intros Hi. unfold sum_with. rewrite map_fold_insert_L; [done| |done].
  intros. lia.
Qed.

Lemma sum_with_nonneg (m : gmap string Z) :
  (∀ i c, m !! i = Some c → 0 ≤ c) → 0 ≤ sum_with (fun c => c) m.
Proof.
  induction m as [|i x m Hi IH] using map_ind; intros Hall.
  - by rewrite sum_with_empty.
  - rewrite sum_with_insert by done.
    assert (0 ≤ x) by (apply (Hall i); by rewrite lookup_insert_eq).
    assert (0 ≤ sum_with (fun c => c) m); [|lia].
    apply IH. intros j c Hj. apply (Hall j).
    rewrite lookup_insert_ne; [done|]. intros ->. by rewrite Hi in Hj.
Qed.

Lemma sum_with_member (m : gmap string Z) :
  (∀ i c, m !! i = Some c → 0 ≤ c) →
  ∀ i c, m !! i = Some c → c ≤ sum_with (fun c => c) m.
Proof.
  induction m as [|j x m Hj IH] using map_ind; intros Hall i c Hic.
  - by rewrite lookup_empty in Hic.
  - rewrite sum_with_insert by done.
    assert (Hall' : ∀ k c, m !! k = Some c → 0 ≤ c).
    { intros k c' Hk. apply (Hall k).
      rewrite lookup_insert_ne; [done|]. intros ->. by rewrite Hj in Hk. }
    assert (0 ≤ x) by (apply (Hall j); by rewrite lookup_insert_eq).
    pose proof (sum_with_nonneg m Hall').
    destruct (decide (i = j)) as [->|Hne].
    + rewrite lookup_insert_eq in Hic. injection Hic as ->. lia.
    + rewrite lookup_insert_ne in Hic by done.
      pose proof (IH Hall' i c Hic). lia.
Qed.

Section TallySums.

Local Open Scope Q_scope.

Lemma frac_add a b t : (0 < t)%Z →
  PyFloat.frac (a + b) t == PyFloat.frac a t + PyFloat.frac b t.
Proof.
  intros Ht. unfold PyFloat.frac. rewrite inject_Z_plus.
  pose proof (inject_Z_pos t Ht). field. lra.
Qed.

Lemma frac_same t : (0 < t)%Z → PyFloat.frac t t == 1.
Proof.
  intros Ht. unfold PyFloat.frac. pose proof (inject_Z_pos t Ht). field. lra.
Qed.

Lemma hundredths_sum_error t (m : gmap string Z) :
  (0 < t)%Z →
  (∀ i c, m !! i = Some c → (0 ≤ c ≤ t)%Z) →
  Qabs (inject_Z (sum_with (fun c => percent_hundredths c t) m)
        - 10000 * PyFloat.frac (sum_with (fun c => c) m) t)
    <= inject_Z (Z.of_nat (size m)) * ((1 # 2) + (1 # 2 ^ 38)).
Proof.
  intros Ht. induction m as [|i x m Hi IH] using map_ind; intros Hall.
  - rewrite !sum_with_empty, map_size_empty. unfold PyFloat.frac.
    change (inject_Z 0) with 0. change (inject_Z (Z.of_nat 0)) with 0.
    setoid_replace (0 - 10000 * (0 / inject_Z t)) with 0 using relation Qeq
      by (unfold Qdiv; ring).
    simpl. lra.
  - rewrite !sum_with_insert, map_size_insert_None by done.
    rewrite Nat2Z.inj_succ. unfold Z.succ. rewrite !inject_Z_plus, frac_add by done.
    destruct (percent_accuracy x t) as (_ & _ & Hx); [|done|].
    { apply (Hall i). by rewrite lookup_insert_eq. }
    assert (Hrest : ∀ j c, m !! j = Some c → (0 ≤ c ≤ t)%Z).
    { intros j c Hj. apply (Hall j).
      rewrite lookup_insert_ne; [done|]. intros ->. by rewrite Hi in Hj. }
    specialize (IH Hrest).
    apply Qabs_Qle_condition in Hx as [Hx1 Hx2].
    apply Qabs_Qle_condition in IH as [IH1 IH2].
    apply Qabs_Qle_condition.
    change (inject_Z 1) with 1.
    set (hx := inject_Z (percent_hundredths x t)) in *.
    set (hs := inject_Z (sum_with (fun c => percent_hundredths c t) m)) in *.
    set (fx := PyFloat.frac x t) in *.
    set (fs := PyFloat.frac (sum_with (fun c => c) m) t) in *.
    set (n := inject_Z (Z.of_nat (size m))) in *.
    clearbody hx hs fx fs n.
    change (1 # 2 ^ 38) with (1 # 274877906944) in *.
    split; lra.
Qed.

Lemma percent_sum_tolerance t (m : gmap string Z) :
  (0 < t)%Z →
  (∀ i c, m !! i = Some c → (0 ≤ c)%Z) →
  sum_with (fun c => c) m = t →
  Qabs (percent_value (sum_with (fun c => percent_hundredths c t) m) - 100)
    <= rounding_tolerance (size m).
Proof.
  intros Ht Hnonneg Hsum.
  pose proof (hundredths_sum_error t m Ht) as Herr.
  rewrite Hsum, frac_same in Herr by done.
  assert (Hall : ∀ i c, m !! i = Some c → (0 ≤ c ≤ t)%Z).
  { intros i c Hic. split; [by apply (Hnonneg i)|].
    rewrite <- Hsum. by apply (sum_with_member m Hnonneg i). }
  specialize (Herr Hall). apply Qabs_Qle_condition in Herr as [H1 H2].
  unfold percent_value, rounding_tolerance. apply Qabs_Qle_condition.
  assert (0 <= inject_Z (Z.of_nat (size m))) as Hn.
  { change 0 with (inject_Z 0). rewrite <- Zle_Qle. lia. }
  set (s := inject_Z (sum_with (fun c => percent_hundredths c t) m)) in *.
  set (n := inject_Z (Z.of_nat (size m))) in *.
  clearbody s n.
  change (1 # 2 ^ 38) with (1 # 274877906944) in *.
  change (1 # 10 ^ 13) with (1 # 10000000000000).
  unfold Qdiv. change (/ 100) with (1 # 100).
  split; lra.
Qed.

End TallySums.

(** ** Printed percentages read back *)

Lemma append_assoc (a b c : string) : (a +:+ b) +:+ c = a +:+ (b +:+ c).
Proof.
  induction a as [|x a IH]; [done|].
  change (String x ((a +:+ b) +:+ c) = String x (a +:+ (b +:+ c))). by rewrite IH.
Qed.

Lemma split_point_digits d rest :
  split_point (NilEmpty.string_of_uint d +:+ String "." rest)
    = Some (NilEmpty.string_of_uint d, rest).
Proof. induction d; simpl; [done|by rewrite IHd..]. Qed.

Lemma decimal_digits n :
  0 ≤ n →
  ∃ d, PyFloat.decimal n = NilEmpty.string_of_uint d
       ∧ NilZero.uint_of_string (NilEmpty.string_of_uint d) = Some d
       ∧ Z.of_N (N.of_uint d) = n.
Proof.
  intros Hn. unfold PyFloat.decimal. exists (N.to_uint (Z.to_N n)).
  assert (N.to_uint (Z.to_N n) ≠ Decimal.Nil) as Hnil.
  { destruct (Z.to_N n); [done|]. apply Unsigned.to_uint_nonnil. }
  split; [|split].
  - unfold NilZero.string_of_uint. by destruct (N.to_uint (Z.to_N n)).
  - unfold NilZero.uint_of_string.
    destruct (NilEmpty.string_of_uint (N.to_uint (Z.to_N n))) eqn:Hs.
    + by destruct (N.to_uint (Z.to_N n)).
    + rewrite <- Hs. apply NilEmpty.usu.
  - rewrite DecimalN.Unsigned.of_to. lia.
Qed.

Lemma digit_value_digit k : 0 ≤ k ≤ 9 → digit_value (PyFloat.digit k) = Some k.
Proof.
  intros Hk.
  assert (k = 0 ∨ k = 1 ∨ k = 2 ∨ k = 3 ∨ k = 4 ∨ k = 5 ∨ k = 6 ∨ k = 7
          ∨ k = 8 ∨ k = 9) as Hcases by lia.
  by repeat destruct Hcases as [->|Hcases]; try subst k.
Qed.

Lemma two_decimals_percent h :
  PyFloat.two_decimals h +:+ "%"
    = PyFloat.decimal (h / 100)
        +:+ String "." (String (PyFloat.digit (h mod 100 / 10))
                          (String (PyFloat.digit (h mod 10)) "%")).
Proof. unfold PyFloat.two_decimals. by rewrite append_assoc. Qed.

(** The text printed for [h] hundredths reads back as [h]. *)
Lemma parse_percent_two_decimals h :
  0 ≤ h → parse_percent (PyFloat.two_decimals h +:+ "%") = Some h.
Proof.
  intros Hh. rewrite two_decimals_percent. unfold parse_percent.
  destruct (decimal_digits (h / 100)) as (d & -> & Hparse & Hval).
  { apply Z.div_pos; lia. }
  rewrite split_point_digits, Hparse.
  rewrite !digit_value_digit, Hval.
  - f_equal. pose proof (Z.div_mod h 100 ltac:(lia)) as H100.
    pose proof (Z.div_mod (h mod 100) 10 ltac:(lia)) as H10.
    assert (h = h mod 100 + 10 * (h / 100) * 10) as E by lia.
    pose proof (Z_mod_plus_full (h mod 100) (10 * (h / 100)) 10) as Hm.
    rewrite <- E in Hm. lia.
  - pose proof (Z.mod_pos_bound h 10). lia.
  - pose proof (Z.mod_pos_bound h 100).
    split; [apply Z.div_pos; lia|]. apply Z.lt_succ_r, Z.div_lt_upper_bound; lia.
Qed.

Lemma percent_total_fmap (f : Z → Z) (m : gmap string Z) :
  (∀ i c, m !! i = Some c → 0 ≤ f c) →
  percent_total ((fun c => PyFloat.two_decimals (f c) +:+ "%") <$> m)
    = Some (sum_with f m).
Proof.
  induction m as [|i x m Hi IH] using map_ind; intros Hall.
  - by rewrite fmap_empty, sum_with_empty.
  - rewrite fmap_insert, sum_with_insert by done. unfold percent_total.
    rewrite map_fold_insert_L.
    + fold (percent_total ((fun c => PyFloat.two_decimals (f c) +:+ "%") <$> m)).
      rewrite IH, parse_percent_two_decimals; [done| |].
      * apply (Hall i). by rewrite lookup_insert_eq.
      * intros j c Hj. apply (Hall j).
        rewrite lookup_insert_ne; [done|]. intros ->. by rewrite Hi in Hj.
    + intros j1 j2 z1 z2 y _ _ _.
      destruct (parse_percent z1), (parse_percent z2), y; try done.
      f_equal. lia.
    + by rewrite lookup_fmap, Hi.
Qed.

(** C3: for a SINGLE_CHOICE or COMBINATION question with respondents,
    every entry of a returned distribution is the percentage of its option:
    the stored count converted with [int], divided by the respondent count
    (a true division), multiplied by the float 100, and printed with the
    ['.2f'] format followed by a percent sign.  For a count between zero
    and the respondent count this is the exact percentage, to half a unit
    of the second decimal (and the margin of the float roundings), printed
    as an integer part, a point and two digits.  A count that is half of
    the respondents is printed as ["50.00%"].  The handler returns whenever
    every option's stored count converts and its quotient is within the
    float range. *)
Theorem distribution_percentage {A V : Type} (py_int : V -> option Z)
    (redis : @RedisManager A V) (QUESTIONS : gmap string question_config)
    (question_id : string) (cfg : question_config) :
  QUESTIONS !! question_id = Some cfg →
  cfg_type cfg = SINGLE_CHOICE ∨ cfg_type cfg = COMBINATION →
  0 < question_respondent_count redis question_id →
  let stats := question_stats redis question_id in
  let total := question_respondent_count redis question_id in
  let prefix := prefix_of (cfg_type cfg) in
  let options :=
    effective_options (cfg_type cfg) (default [] (cfg_options cfg)) stats in
  (∀ r t, run (get_question_distribution py_int redis QUESTIONS question_id)
            = (Return r, t) →
     ∀ o s, distribution r !! o = Some s →
       ∃ c q, count_of py_int stats prefix o = Some c
              ∧ int_true_div c total = Return q
              ∧ s = PyFloat.format_2f (PyFloat.float_mul q PyFloat.float_100) +:+ "%"
              ∧ (0 ≤ c ≤ total →
                   s = PyFloat.two_decimals (percent_hundredths c total) +:+ "%"
                   ∧ parse_percent s = Some (percent_hundredths c total)
                   ∧ (Qabs (percent_value (percent_hundredths c total)
                            - 100 * PyFloat.frac c total)
                        <= (1 # 200) + (1 # 10 ^ 13))%Q))
  ∧ (∀ c, 0 < c → percent_of (2 * c) c = Some "50.00%")
  ∧ ((∀ o, o ∈ options → is_Some (entry_of py_int stats prefix total o)) →
     ∃ r t, run (get_question_distribution py_int redis QUESTIONS question_id)
              = (Return r, t)).
Proof.
  intros Hq Hty Hpos stats total prefix options.
  rewrite (get_question_distribution_run _ _ _ _ cfg Hq).
  unfold distribution_of. fold total stats.
  replace (0 <? total) with true by (symmetry; apply Z.ltb_lt; lia).
  rewrite bool_decide_eq_true_2 by done.
  split; [|split].
  - intros r t Hrun o s Hos.
    destruct (tally _ _ _ _ _ _) as [[d|e] t'] eqn:Htally; [|done].
    injection Hrun as <- <-. simpl in Hos.
    apply tally_Return in Htally as [_ Hd]. rewrite Hd in Hos.
    destruct (decide _) as [Ho|Ho]; [|done].
    unfold entry_of in Hos. fold prefix in Hos.
    destruct (count_of py_int stats prefix o) as [c|] eqn:Hc; [|done].
    simpl in Hos. pose proof Hos as Hos'. unfold percent_of in Hos.
    destruct (int_true_div c total) as [q|e] eqn:Hdiv; [|done].
    injection Hos as <-. exists c, q. split; [done|]. split; [done|].
    split; [done|]. intros Hrange.
    destruct (percent_accuracy c total Hrange Hpos) as (Hs & Hh & Herr).
    rewrite Hs in Hos'. injection Hos' as Hos'. split; [done|].
    split; [rewrite <- Hos'; by apply parse_percent_two_decimals|].
    apply Qabs_Qle_condition in Herr as [H1 H2]. apply Qabs_Qle_condition.
    unfold percent_value.
    set (h := inject_Z (percent_hundredths c total)) in *.
    set (x := PyFloat.frac c total) in *. clearbody h x.
    change (1 # 2 ^ 38)%Q with (1 # 274877906944)%Q in *.
    change (1 # 10 ^ 13)%Q with (1 # 10000000000000)%Q.
    unfold Qdiv. change (/ 100)%Q with (1 # 100)%Q.
    split; lra.
  - exact percent_of_half.
  - intros Hall.
    destruct (tally_total py_int (cfg_type cfg) (default [] (cfg_options cfg))
                stats total (reads question_id) Hall) as (d & t & ->).
    by eexists _, _.
Qed.

Lemma distribution_percentage_witness :
  ∃ r t, run (get_question_distribution Some Sample.store Sample.catalog "q1")
           = (Return r, t)
         ∧ distribution r !! "a" = Some "50.00%".
Proof.
  destruct (distribution_percentage Some Sample.store Sample.catalog "q1"
              {| cfg_type := SINGLE_CHOICE; cfg_label := "District";
                 cfg_options := Some ["a"; "b"] |})
    as (Hentry & _ & Hreturns); [reflexivity|by left|reflexivity|].
  destruct Hreturns as (r & t & Hrun).
  { intros o Ho. simpl in Ho.
    apply elem_of_cons in Ho as [->|Ho]; [by eexists|].
    apply elem_of_cons in Ho as [->|Ho]; [by eexists|].
    by apply elem_of_nil in Ho. }
  exists r, t. split; [exact Hrun|].
  destruct (distribution r !! "a") as [s|] eqn:Hs.
  - destruct (Hentry r t Hrun "a" s Hs) as (c & q & Hc & Hdiv & -> & _).
    injection Hc as <-. injection Hdiv as <-. reflexivity.
  - vm_compute in Hrun. injection Hrun as <- _. vm_compute in Hs. discriminate.
Defined.

(** C8: for a SINGLE_CHOICE question with respondents whose stored vote
    counts (non-negative tallies, one per declared option) sum to the
    respondent count, the handler returns, each entry of the distribution
    prints the hundredths of its option's percentage with two decimals, and
    the printed percentages sum to 100 within the rounding tolerance. *)
Theorem single_choice_percentages_sum {A V : Type} (py_int : V -> option Z)
    (redis : @RedisManager A V) (QUESTIONS : gmap string question_config)
    (question_id : string) (cfg : question_config)
    (vote_counts : gmap string Z) :
  QUESTIONS !! question_id = Some cfg →
  cfg_type cfg = SINGLE_CHOICE →
  0 < question_respondent_count redis question_id →
  let stats := question_stats redis question_id in
  let total := question_respondent_count redis question_id in
  dom vote_counts = list_to_set (default [] (cfg_options cfg)) →
  (∀ o c, vote_counts !! o = Some c →
          count_of py_int stats "option:" o = Some c ∧ 0 ≤ c) →
  sum_with (fun c => c) vote_counts = total →
  ∃ r t, run (get_question_distribution py_int redis QUESTIONS question_id)
           = (Return r, t)
         ∧ distribution r
             = (fun c => PyFloat.two_decimals (percent_hundredths c total) +:+ "%")
                 <$> vote_counts
         ∧ ∃ h, percent_total (distribution r) = Some h
                ∧ (Qabs (percent_value h - 100)
                     <= rounding_tolerance (size (distribution r)))%Q.
Proof.
  intros Hq Hty Hpos stats total Hdom Hcounts Hsum.
  set (options := default [] (cfg_options cfg)) in *.
  assert (Hrange : ∀ o c, vote_counts !! o = Some c → 0 ≤ c ≤ total).
  { intros o c Hoc. split; [by apply (Hcounts o)|].
    rewrite <- Hsum. apply (sum_with_member vote_counts) with o; [|done].
    intros i c' Hi. by apply (Hcounts i). }
  assert (Hentry : ∀ o, o ∈ options →
            ∃ c, vote_counts !! o = Some c
                 ∧ entry_of py_int stats "option:" total o
                   = Some (PyFloat.two_decimals (percent_hundredths c total) +:+ "%")).
  { intros o Ho.
    assert (o ∈ dom vote_counts) as Hin by (rewrite Hdom; by apply elem_of_list_to_set).
    apply elem_of_dom in Hin as [c Hoc]. exists c. split; [done|].
    destruct (Hcounts o c Hoc) as [Hc _]. unfold entry_of. rewrite Hc. simpl.
    by destruct (percent_accuracy c total (Hrange o c Hoc) Hpos) as (-> & _). }
  rewrite (get_question_distribution_run _ _ _ _ cfg Hq).
  unfold distribution_of. fold total stats options.
  replace (0 <? total) with true by (symmetry; apply Z.ltb_lt; lia).
  rewrite bool_decide_eq_true_2 by (by left). rewrite Hty.
  destruct (tally_total py_int SINGLE_CHOICE options stats total (reads question_id))
    as (d & t & Htally).
  { intros o Ho. destruct (Hentry o Ho) as (c & _ & Hc). eexists. exact Hc. }
  rewrite Htally. eexists _, _. split; [done|]. simpl.
  assert (d = (fun c => PyFloat.two_decimals (percent_hundredths c total) +:+ "%")
                <$> vote_counts) as ->; [|split; [done|]].
  - apply tally_Return in Htally as [_ Hd]. apply map_eq. intros o.
    rewrite Hd, lookup_fmap.
    change (effective_options SINGLE_CHOICE options stats) with options.
    change (prefix_of SINGLE_CHOICE) with "option:".
    destruct (decide (o ∈ options)) as [Ho|Ho].
    + destruct (Hentry o Ho) as (c & -> & ->). done.
    + assert (vote_counts !! o = None) as ->; [|done].
      apply not_elem_of_dom. rewrite Hdom. by rewrite elem_of_list_to_set.
  - exists (sum_with (fun c => percent_hundredths c total) vote_counts). split.
    + apply percent_total_fmap. intros i c Hi.
      by destruct (percent_accuracy c total (Hrange i c Hi) Hpos) as (_ & ? & _).
    + rewrite map_size_fmap. apply percent_sum_tolerance; [done| |done].
      intros i c Hi. by apply (Hcounts i).
Qed.

Lemma single_choice_percentages_sum_witness :
  ∃ r t, run (get_question_distribution Some Sample.store Sample.catalog "q1")
           = (Return r, t)
         ∧ distribution r = {[ "a" := "50.00%"; "b" := "50.00%" ]}
         ∧ percent_total (distribution r) = Some 10000.
Proof.
  destruct (single_choice_percentages_sum Some Sample.store Sample.catalog "q1"
              {| cfg_type := SINGLE_CHOICE; cfg_label := "District";
                 cfg_options := Some ["a"; "b"] |}
              Sample.vote_counts)
    as (r & t & Hrun & Hd & h & Hsum & _).
  - reflexivity.
  - reflexivity.
  - reflexivity.
  - simpl. set_solver.
  - intros o c Hoc. unfold Sample.vote_counts in Hoc.
    apply lookup_insert_Some in Hoc as [[<- <-]|[_ Hoc]]; [by split|].
    apply lookup_singleton_Some in Hoc as [<- <-]. by split.
  - reflexivity.
  - exists r, t. split; [exact Hrun|]. rewrite Hd. split; reflexivity.
Defined.

(** ** The running average *)

Section RunningAverage.

Import Engine.

Variable catalog : gmap string question.

Lemma total_insert_fresh f records user_id answers :
  records !! user_id = None →
  total f (<[user_id := answers]> records) = (total f records + f answers)%Qc.
Proof.
  intros Hfresh. unfold total. rewrite map_fold_insert_L; [ring|..|done].
  intros. ring.
Qed.

Lemma total_insert_known f records user_id old answers :
  records !! user_id = Some old →
  total f (<[user_id := answers]> records)
    = (total f records - f old + f answers)%Qc.
Proof.
  intros Hold. rewrite <- (insert_delete_eq records).
  rewrite total_insert_fresh by apply lookup_delete_eq.
  unfold total at 2.
  rewrite (map_fold_delete_L _ _ user_id old records); [|intros; ring|done].
  fold (total f (delete user_id records)). ring.
Qed.

Lemma consistent_initial : consistent catalog initial.
Proof. by unfold consistent, total; simpl; rewrite !map_fold_empty, map_size_empty. Qed.

Lemma consistent_submit st user_id answers :
  consistent catalog st → consistent catalog (submit catalog st user_id answers).
Proof.
  intros (Hx & Hy & Hn). unfold consistent, submit, put, apply. simpl.
  destruct (store st !! user_id) as [old|] eqn:Hold; simpl.
  - rewrite !(total_insert_known _ _ _ old) by done.
    rewrite map_size_insert_Some by (by eexists).
    by rewrite Hx, Hy, Hn.
  - rewrite !total_insert_fresh by done.
    rewrite map_size_insert_None by done.
    by rewrite Hx, Hy, Hn.
Qed.

Lemma submit_all_snoc submissions s :
  submit_all catalog (submissions ++ [s])
    = submit catalog (submit_all catalog submissions) s.1 s.2.
Proof. unfold submit_all. by rewrite foldl_app. Qed.

Lemma consistent_submit_all submissions :
  consistent catalog (submit_all catalog submissions).
Proof.
  induction submissions as [|s submissions IH] using rev_ind.
  - apply consistent_initial.
  - rewrite submit_all_snoc. by apply consistent_submit.
Qed.

Lemma store_submit_all submissions :
  store (submit_all catalog submissions) = current_records submissions.
Proof.
  unfold current_records.
  induction submissions as [|s submissions IH] using rev_ind; [done|].
  rewrite submit_all_snoc, reverse_snoc. simpl. by rewrite IH.
Qed.

End RunningAverage.

(** C1: after any sequence of submissions, [global_average()] of the
    incrementally maintained aggregate is the arithmetic mean of [score]
    over the current Answer Record (the last submission) of every user who
    has ever submitted, recomputed from scratch; both are "no data" when
    nobody has submitted. *)
Theorem global_average_is_mean (catalog : gmap string Engine.question)
    (submissions : list (string * gmap string Engine.answer)) :
  Engine.global_average (Engine.aggregate (Engine.submit_all catalog submissions))
    = Engine.mean_score catalog (Engine.current_records submissions).
Proof.
  destruct (consistent_submit_all catalog submissions) as (Hx & Hy & Hn).
  rewrite store_submit_all in Hx, Hy, Hn.
  unfold Engine.global_average, Engine.mean_score.
  rewrite Hx, Hy, Hn. reflexivity.
Qed.

(** * Further properties of the handlers *)

(** ** More sample data *)

(** [old in s]: [old] occurs somewhere in [s] (for a non-empty [old]). *)
Fixpoint str_occurs (old s : string) : bool :=
  match s with
  | EmptyString => false
  | String _ s' => String.prefix old s || str_occurs old s'
  end.

(** A failing scoring engine: the final scores cannot be computed. *)
Definition failing_engine : @ScoringEngine Z :=
  {| final_axes_scores := fun _ => Raise (OtherException "KeyError");
     average_axes_scores := Return (1, 1) |}.

(** [read_root], the handler of [GET /]. *)
Definition read_root : M (gmap string string) :=
  mret {[ "message" :=
            "Welcome to the ChongQing Identity Map API. Visit /docs for documentation." ]}.

(** What [int] does on a text of decimal digits; any other text is refused. *)
Definition digits_int (s : string) : option Z :=
  (fun u => Z.of_N (N.of_uint u)) <$> NilZero.uint_of_string s.

(** A store whose stats hold texts; the count of [b] is not a number. *)
Definition text_store : @RedisManager string string :=
  {| user_answers := fun _ => None;
     question_stats := fun _ => {[ "option:a" := "3"; "option:b" := "n/a";
                                  "option:z" := "7"; "combo:a,b" := "1" ]};
     question_respondent_count := fun _ => 4 |}.

(** The same store with clean stats for the declared options of [q1]. *)
Definition clean_text_store : @RedisManager string string :=
  {| user_answers := fun _ => None;
     question_stats := fun _ => {[ "option:a" := "3"; "option:b" := "1" ]};
     question_respondent_count := fun _ => 4 |}.

(** The store of [clean_text_store] with stray fields beside them. *)
Definition noisy_text_store : @RedisManager string string :=
  {| user_answers := fun _ => None;
     question_stats := fun _ => {[ "option:a" := "3"; "option:b" := "1";
                                  "option:z" := "oops"; "combo:a,b" := "1" ]};
     question_respondent_count := fun _ => 4 |}.

(** A store with two combination keys and a respondent count for [q2]. *)
Definition dishes_store : @RedisManager string Z :=
  {| user_answers := fun _ => None;
     question_stats := fun _ => {[ "combo:hotpot" := 3; "combo:noodles,hotpot" := 1;
                                  "option:a" := 9 ]};
     question_respondent_count := fun _ => 4 |}.

(** A store whose respondent count went below zero. *)
Definition negative_store : @RedisManager string Z :=
  {| user_answers := fun _ => None;
     question_stats := fun _ => {[ "option:a" := 1 ]};
     question_respondent_count := fun _ => -1 |}.

(** A catalog whose single-choice question has no ['options'] entry, and
    one in which the combination question declares options. *)
Definition bare_catalog : gmap string question_config :=
  {[ "q1" := {| cfg_type := SINGLE_CHOICE; cfg_label := "District";
                cfg_options := None |} ]}.

Definition declaring_catalog : gmap string question_config :=
  {[ "q2" := {| cfg_type := COMBINATION; cfg_label := "Dishes";
                cfg_options := Some ["x"; "y"] |} ]}.

(** An event is a true division by [total]. *)
Definition division_by (total : Z) (ev : event) : Prop :=
  ∃ a, ev = TrueDivide a total.

(** The root handler returns its message and reads nothing. *)
Example read_root_run :
  run read_root
    = (Return {[ "message" :=
                   "Welcome to the ChongQing Identity Map API. Visit /docs for documentation." ]},
       []).
Proof. reflexivity. Qed.

(** ** [str.replace] on stats keys *)

Lemma prefix_drop_chars p : ∀ k,
  String.prefix p k = true → p +:+ PyStr.drop_chars (String.length p) k = k.
Proof.
  induction p as [|a p IH]; intros k Hk; [done|].
  destruct k as [|b k]; [done|]. simpl in Hk.
  destruct (ascii_dec a b) as [->|]; [|done].
  change (String b (p +:+ PyStr.drop_chars (String.length p) k) = String b k).
  f_equal. by apply IH.
Qed.

Lemma replace_go_skip old new n : ∀ s,
  PyStr.replace_go old new n s
    = PyStr.replace_go old new 0 (PyStr.drop_chars n s).
Proof.
  induction n as [|n IH]; intros s.
  - by destruct s.
  - destruct s as [|c s]; [done|]. simpl. apply IH.
Qed.

(** [s.replace(old, new)] leaves a string without occurrence of [old] as it
    is. *)
Lemma replace_no_occurrence old new s :
  str_occurs old s = false → PyStr.replace s old new = s.
Proof.
  unfold PyStr.replace. induction s as [|c s IH]; intros Hocc; [done|].
  change (str_occurs old (String c s))
    with (String.prefix old (String c s) || str_occurs old s) in Hocc.
  apply orb_false_iff in Hocc as [Hpre Hocc].
  change (PyStr.replace_go old new 0 (String c s))
    with (if String.prefix old (String c s)
          then new +:+ PyStr.replace_go old new (String.length old - 1) s
          else String c (PyStr.replace_go old new 0 s)).
  rewrite Hpre. f_equal. by apply IH.
Qed.

(** On a key that starts with [old] and holds no further occurrence of it,
    [k.replace(old, "")] strips the prefix. *)
Lemma replace_strips_prefix old k :
  old ≠ "" →
  PyStr.startswith k old = true →
  str_occurs old (PyStr.drop_chars (String.length old) k) = false →
  PyStr.replace k old "" = PyStr.removeprefix k old.
Proof.
  intros Hold Hpre Hocc. unfold PyStr.removeprefix, PyStr.startswith in *.
  rewrite Hpre. unfold PyStr.replace.
  destruct old as [|a old]; [done|]. destruct k as [|b k]; [done|].
  change (PyStr.replace_go (String a old) "" 0 (String b k))
    with (if String.prefix (String a old) (String b k)
          then "" +:+ PyStr.replace_go (String a old) ""
                        (String.length (String a old) - 1) k
          else String b (PyStr.replace_go (String a old) "" 0 k)).
  rewrite Hpre.
  replace (String.length (String a old) - 1)%nat with (String.length old)
    by (simpl; lia).
  change (PyStr.drop_chars (String.length (String a old)) (String b k))
    with (PyStr.drop_chars (String.length old) k) in *.
  change (PyStr.replace_go (String a old) "" (String.length old) k
          = PyStr.drop_chars (String.length old) k).
  rewrite replace_go_skip.
  by apply (replace_no_occurrence (String a old) "").
Qed.

(** ** The score endpoint, all paths *)

(** X1: whatever the store and the scoring engine do, the score handler
    either returns a body or raises [HTTPException(500)]: no exception of
    another kind and no other status (404 included) leaves it. *)
Theorem get_user_score_outcome {A V F : Type} (redis : @RedisManager A V)
    (scoring : @ScoringEngine F) (str_exn : exn -> string) (user_id : string) :
  (∃ body, (run (get_user_score redis scoring str_exn user_id)).1 = Return body)
  ∨ (∃ detail, (run (get_user_score redis scoring str_exn user_id)).1
               = Raise (HTTPException 500 detail)).
Proof.
  unfold run, get_user_score, try_except, get_user_answers. unfold_M. simpl.
  destruct (truthy (user_answers redis user_id)); simpl; [|by right; eexists].
  destruct (final_axes_scores scoring user_id); simpl; [|by right; eexists].
  destruct (average_axes_scores scoring); simpl; [by left; eexists|by right; eexists].
Qed.

(** X2: the score handler returns a body exactly when the user has a
    non-empty Answer Record and both calls of the scoring engine return;
    the body then carries the requested user id, the engine's final scores
    of that user and the engine's averages. *)
Theorem get_user_score_returns_iff {A V F : Type} (redis : @RedisManager A V)
    (scoring : @ScoringEngine F) (str_exn : exn -> string) (user_id : string)
    (body : ScoreResponse F) :
  (run (get_user_score redis scoring str_exn user_id)).1 = Return body
  ↔ truthy (user_answers redis user_id) = true
    ∧ ∃ final avg,
        final_axes_scores scoring user_id = Return final
        ∧ average_axes_scores scoring = Return avg
        ∧ body = Build_ScoreResponse user_id final.1 final.2 avg.1 avg.2.
Proof.
  unfold run, get_user_score, try_except, get_user_answers. unfold_M. simpl.
  destruct (truthy (user_answers redis user_id)); simpl.
  - destruct (final_axes_scores scoring user_id) as [final|e]; simpl.
    + destruct (average_axes_scores scoring) as [avg|e]; simpl.
      * split.
        -- intros [= <-]. split; [done|]. by exists final, avg.
        -- intros (_ & f & a & [= <-] & [= <-] & ->). done.
      * split; [done|]. by intros (_ & f & a & _ & ? & _).
    + split; [done|]. by intros (_ & f & a & ? & _).
  - split; [done|]. by intros [? _].
Qed.

(** X3: for a known user, an exception [e] of [get_final_axes_scores], or
    of [get_average_axes_scores] once the final scores are there, is
    answered with [HTTPException(500)] whose detail is [str(e)]; the final
    scores are asked for first, so their exception is the one reported. *)
Theorem get_user_score_engine_failure {A V F : Type} (redis : @RedisManager A V)
    (scoring : @ScoringEngine F) (str_exn : exn -> string) (user_id : string)
    (e : exn) :
  truthy (user_answers redis user_id) = true →
  final_axes_scores scoring user_id = Raise e
  ∨ ((∃ final, final_axes_scores scoring user_id = Return final)
     ∧ average_axes_scores scoring = Raise e) →
  run (get_user_score redis scoring str_exn user_id)
    = (Raise (HTTPException 500 (str_exn e)), [ReadUserAnswers user_id]).
Proof.
  intros Hknown Hfail.
  unfold run, get_user_score, try_except, get_user_answers. unfold_M. simpl.
  rewrite Hknown. simpl.
  destruct Hfail as [->|[[final ->] ->]]; done.
Qed.

Lemma get_user_score_engine_failure_witness :
  run (get_user_score Sample.store failing_engine Sample.str_exn "u1")
    = (Raise (HTTPException 500 "KeyError"), [ReadUserAnswers "u1"]).
Proof.
  apply (get_user_score_engine_failure Sample.store failing_engine Sample.str_exn
           "u1" (OtherException "KeyError")).
  - reflexivity.
  - left. reflexivity.
Defined.

(** ** The two loops, on every path *)

Lemma int_true_div_Raise a b e :
  int_true_div a b = Raise e →
  (b = 0 ∧ e = ZeroDivisionError) ∨ (b ≠ 0 ∧ e = OverflowError).
Proof.
  unfold int_true_div. destruct (Z.eqb_spec b 0) as [->|Hb].
  - intros [= <-]. by left.
  - destruct (PyFloat.round_binary64 _ _ _); intros [= <-]. by right.
Qed.

Section MoreLoops.

Context {V : Type}.
Variable py_int : V -> option Z.
Variable stats : gmap string V.
Variable prefix : string.
Variable total : Z.

Lemma vote_loop_fails opts : ∀ vc0 t,
  (∃ o, o ∈ opts ∧ count_of py_int stats prefix o = None) →
  for_each opts (vote_body py_int stats prefix) vc0 t = (Raise ValueError, t).
Proof.
  induction opts as [|x opts IH]; intros vc0 t (o & Ho & Hnone).
  - by apply elem_of_nil in Ho.
  - simpl. unfold mbind, M_bind. rewrite vote_body_run.
    destruct (count_of py_int stats prefix x) as [c|] eqn:Hx; [|done].
    apply IH. exists o. split; [|done].
    apply elem_of_cons in Ho as [->|Ho]; [congruence|done].
Qed.

Lemma vote_loop_Raise opts : ∀ vc0 t e t',
  for_each opts (vote_body py_int stats prefix) vc0 t = (Raise e, t') →
  e = ValueError ∧ t' = t.
Proof.
  induction opts as [|x opts IH]; intros vc0 t e t' Hrun; simpl in Hrun.
  - done.
  - unfold mbind, M_bind in Hrun. rewrite vote_body_run in Hrun.
    destruct (count_of py_int stats prefix x) as [c|].
    + by apply IH in Hrun.
    + by injection Hrun as <- <-.
Qed.

(** Whatever the second loop ends with, it has added true divisions by the
    total to the trace and nothing else; it can only stop on the exception
    of a division. *)
Lemma percent_loop_trace l : ∀ d0 t o t',
  for_each l (percent_body total) d0 t = (o, t') →
  ∃ divs, t' = (t ++ divs)%list ∧ Forall (division_by total) divs
          ∧ match o with
            | Return _ => length divs = length l
            | Raise e => (total = 0 ∧ e = ZeroDivisionError)
                         ∨ (total ≠ 0 ∧ e = OverflowError)
            end.
Proof.
  induction l as [|[k c] l IH]; intros d0 t o t' Hrun; simpl in Hrun.
  - unfold_M. injection Hrun as <- <-. exists []. by rewrite app_nil_r.
  - unfold mbind, M_bind in Hrun. rewrite percent_body_run in Hrun. simpl in Hrun.
    destruct (int_true_div c total) as [q|e] eqn:Hq.
    + apply IH in Hrun as (divs & -> & Hall & Ho).
      exists (TrueDivide c total :: divs). split; [by rewrite <- app_assoc|].
      split; [constructor; [by exists c|done]|].
      destruct o; [simpl; by rewrite Ho|done].
    + injection Hrun as <- <-. exists [TrueDivide c total].
      split; [done|]. split; [constructor; [by exists c|done]|].
      by apply int_true_div_Raise in Hq.
Qed.

End MoreLoops.

(** The distribution of a tally has one entry for each of the divisions
    that the trace holds. *)
Lemma tally_outcome {V : Type} (py_int : V -> option Z) ty options
    (stats : gmap string V) total t o t' :
  total ≠ 0 →
  tally py_int ty options stats total t = (o, t') →
  ∃ divs, t' = (t ++ divs)%list ∧ Forall (division_by total) divs
          ∧ match o with
            | Return d => length divs = size d
            | Raise e => (e = ValueError ∧ divs = []) ∨ e = OverflowError
            end.
Proof.
  intros Htotal. unfold tally. intros Hrun. unfold mbind at 1, M_bind at 1 in Hrun.
  destruct (for_each _ _ ∅ t) as [[vc|e] t1] eqn:Hvote.
  - apply (vote_loop_Return py_int stats (prefix_of ty)) in Hvote as (-> & _ & _).
    pose proof Hrun as Htrace.
    apply (percent_loop_trace total) in Htrace as (divs & -> & Hall & Ho).
    exists divs. split; [done|]. split; [done|].
    destruct o as [d|e].
    + apply (percent_loop_Return total) in Hrun as (_ & Hpct & Hd);
        [|apply NoDup_fst_map_to_list].
      rewrite Ho, length_map_to_list, <- !size_dom. f_equal.
      apply set_eq. intros k. rewrite !elem_of_dom, Hd, list_to_map_to_list.
      destruct (vc !! k) as [c|] eqn:Hk.
      * split; [|by eexists]. intros _.
        apply (Hpct (k, c)). by apply elem_of_map_to_list.
      * rewrite lookup_empty. split; by intros [? ?].
    + destruct Ho as [[? _]|[_ ->]]; [congruence|by right].
  - apply (vote_loop_Raise py_int stats (prefix_of ty)) in Hvote as [-> ->].
    injection Hrun as <- <-. exists []. rewrite app_nil_r.
    split; [done|]. split; [done|]. by left.
Qed.

(** ** The distribution endpoint, all paths *)

Lemma tally_unfold {V : Type} (py_int : V -> option Z) ty options
    (stats : gmap string V) total t :
  tally py_int ty options stats total t =
    match for_each (effective_options ty options stats)
                   (vote_body py_int stats (prefix_of ty)) ∅ t with
    | (Return vc, t1) => for_each (map_to_list vc) (percent_body total) ∅ t1
    | (Raise e, t1) => (Raise e, t1)
    end.
Proof. reflexivity. Qed.


(** X5: a returned body echoes the requested question id, carries the
    label of that question in the catalog and the respondent count of the
    store, whatever the distribution is. *)
Theorem distribution_response_fields {A V : Type} (py_int : V -> option Z)
    (redis : @RedisManager A V) (QUESTIONS : gmap string question_config)
    (question_id : string) (r : DistributionResponse) (t : list event) :
  run (get_question_distribution py_int redis QUESTIONS question_id) = (Return r, t) →
  dr_question_id r = question_id
  ∧ total_respondents r = question_respondent_count redis question_id
  ∧ ∃ cfg, QUESTIONS !! question_id = Some cfg ∧ dr_label r = cfg_label cfg.
Proof.
  destruct (QUESTIONS !! question_id) as [cfg|] eqn:Hq.
  - rewrite (get_question_distribution_run _ _ _ _ cfg Hq).
    destruct (distribution_of _ _ _ _ _) as [[d|e] t']; [|done].
    intros [= <- <-]. simpl. split; [done|]. split; [done|]. by exists cfg.
  - unfold run, get_question_distribution. by rewrite Hq.
Qed.

Lemma distribution_response_fields_witness :
  ∃ r t, run (get_question_distribution Some Sample.store Sample.catalog "q1")
           = (Return r, t)
         ∧ dr_question_id r = "q1" ∧ total_respondents r = 2 ∧ dr_label r = "District".
Proof.
  eexists _, _. split; [vm_compute; reflexivity|].
  match goal with
  | |- dr_question_id ?r = _ ∧ _ =>
      destruct (distribution_response_fields Some Sample.store Sample.catalog "q1" r
                  (reads "q1" ++ [TrueDivide 1 2; TrueDivide 1 2])%list)
        as (Hid & Htotal & cfg & Hcfg & Hlabel)
  end.
  - vm_compute. reflexivity.
  - split; [exact Hid|]. split; [exact Htotal|].
    rewrite Hlabel. injection Hcfg as <-. reflexivity.
Defined.

(** X6: for a catalog question the handler reads the stats, then the
    respondent count, once each and before anything else, also when the
    stats will not be used; all that follows in the trace are true divisions
    by the respondent count.  On return there is one division for each
    entry of the distribution of a SINGLE_CHOICE or COMBINATION question,
    and none for a question of another type. *)
Theorem distribution_trace {A V : Type} (py_int : V -> option Z)
    (redis : @RedisManager A V) (QUESTIONS : gmap string question_config)
    (question_id : string) (cfg : question_config) :
  QUESTIONS !! question_id = Some cfg →
  let total := question_respondent_count redis question_id in
  ∃ divs,
    (run (get_question_distribution py_int redis QUESTIONS question_id)).2
      = ([ReadQuestionStats question_id; ReadRespondentCount question_id] ++ divs)%list
    ∧ Forall (division_by total) divs
    ∧ ∀ r, (run (get_question_distribution py_int redis QUESTIONS question_id)).1
             = Return r →
           if bool_decide (cfg_type cfg = SINGLE_CHOICE ∨ cfg_type cfg = COMBINATION)
           then length divs = size (distribution r)
           else divs = [].
Proof.
  intros Hq total. rewrite (get_question_distribution_run _ _ _ _ cfg Hq).
  unfold distribution_of. fold total.
  destruct (Z.ltb_spec 0 total) as [Hpos|Hle].
  - destruct (bool_decide _) eqn:Hty.
    + destruct (tally _ _ _ _ _ _) as [o t] eqn:Htally.
      apply tally_outcome in Htally as (divs & -> & Hall & Ho); [|lia].
      exists divs. destruct o as [d|e]; simpl.
      * split; [done|]. split; [done|]. by intros r [= <-].
      * split; [done|]. split; [done|]. done.
    + exists []. simpl. split; [done|]. split; [done|]. done.
  - exists []. simpl. split; [done|]. split; [done|].
    intros r [= <-]. simpl. by destruct (bool_decide _).
Qed.

Lemma distribution_trace_witness :
  ∃ divs,
    (run (get_question_distribution Some Sample.store Sample.catalog "q1")).2
      = ([ReadQuestionStats "q1"; ReadRespondentCount "q1"] ++ divs)%list
    ∧ Forall (division_by 2) divs.
Proof.
  destruct (distribution_trace Some Sample.store Sample.catalog "q1"
              {| cfg_type := SINGLE_CHOICE; cfg_label := "District";
                 cfg_options := Some ["a"; "b"] |})
    as (divs & Htrace & Hdivs & _); [reflexivity|].
  exists divs. split; [exact Htrace|exact Hdivs].
Defined.

(** X7: a respondent count of zero or below (the guard is [> 0]) gives
    the empty distribution for a catalog question of any type, with no
    division; the count is reported as it is. *)
Theorem nonpositive_respondents_empty {A V : Type} (py_int : V -> option Z)
    (redis : @RedisManager A V) (QUESTIONS : gmap string question_config)
    (question_id : string) (cfg : question_config) :
  QUESTIONS !! question_id = Some cfg →
  question_respondent_count redis question_id ≤ 0 →
  run (get_question_distribution py_int redis QUESTIONS question_id)
    = (Return {| dr_question_id := question_id;
                 dr_label := cfg_label cfg;
                 total_respondents := question_respondent_count redis question_id;
                 distribution := ∅ |},
       [ReadQuestionStats question_id; ReadRespondentCount question_id]).
Proof.
  intros Hq Hle. rewrite (get_question_distribution_run _ _ _ _ cfg Hq).
  unfold distribution_of.
  replace (0 <? _) with false by (symmetry; apply Z.ltb_ge; lia). reflexivity.
Qed.

Lemma nonpositive_respondents_empty_witness :
  run (get_question_distribution Some negative_store Sample.catalog "q1")
    = (Return {| dr_question_id := "q1"; dr_label := "District";
                 total_respondents := -1; distribution := ∅ |},
       [ReadQuestionStats "q1"; ReadRespondentCount "q1"]).
Proof.
  apply (nonpositive_respondents_empty Some negative_store Sample.catalog "q1"
           {| cfg_type := SINGLE_CHOICE; cfg_label := "District";
              cfg_options := Some ["a"; "b"] |}).
  - reflexivity.
  - simpl. lia.
Defined.

(** X8: for a COMBINATION question the ['options'] entry of the catalog
    has no influence at all: two catalogs that both hold the question as
    COMBINATION with the same label give the same result and the same
    trace. *)
Theorem combination_ignores_declared_options {A V : Type} (py_int : V -> option Z)
    (redis : @RedisManager A V) (Q1 Q2 : gmap string question_config)
    (question_id : string) (cfg1 cfg2 : question_config) :
  Q1 !! question_id = Some cfg1 →
  Q2 !! question_id = Some cfg2 →
  cfg_type cfg1 = COMBINATION →
  cfg_type cfg2 = COMBINATION →
  cfg_label cfg1 = cfg_label cfg2 →
  run (get_question_distribution py_int redis Q1 question_id)
    = run (get_question_distribution py_int redis Q2 question_id).
Proof.
  intros H1 H2 Hty1 Hty2 Hlabel.
  rewrite (get_question_distribution_run _ _ _ _ cfg1 H1).
  rewrite (get_question_distribution_run _ _ _ _ cfg2 H2).
  unfold distribution_of. rewrite Hty1, Hty2, Hlabel.
  destruct (0 <? _); [|done].
  rewrite bool_decide_eq_true_2 by (by right).
  by rewrite !tally_unfold.
Qed.

Lemma combination_ignores_declared_options_witness :
  run (get_question_distribution Some dishes_store Sample.catalog "q2")
    = run (get_question_distribution Some dishes_store declaring_catalog "q2").
Proof.
  apply (combination_ignores_declared_options Some dishes_store Sample.catalog
           declaring_catalog "q2"
           {| cfg_type := COMBINATION; cfg_label := "Dishes"; cfg_options := None |}
           {| cfg_type := COMBINATION; cfg_label := "Dishes";
              cfg_options := Some ["x"; "y"] |}); reflexivity.
Defined.

Lemma vote_loop_ext {V : Type} (py_int : V -> option Z)
    (stats1 stats2 : gmap string V) prefix opts : ∀ vc0 t,
  (∀ o, o ∈ opts → stats1 !! (prefix +:+ o) = stats2 !! (prefix +:+ o)) →
  for_each opts (vote_body py_int stats1 prefix) vc0 t
    = for_each opts (vote_body py_int stats2 prefix) vc0 t.
Proof.
  induction opts as [|x opts IH]; intros vc0 t Hagree; [done|].
  simpl. unfold mbind, M_bind. rewrite !vote_body_run. unfold count_of.
  rewrite (Hagree x) by (by apply elem_of_cons; left).
  destruct (stats2 !! (prefix +:+ x)) as [v|].
  - destruct (py_int v); [|done]. apply IH.
    intros o Ho. apply Hagree. by apply elem_of_cons; right.
  - apply IH. intros o Ho. apply Hagree. by apply elem_of_cons; right.
Qed.

(** X9: a SINGLE_CHOICE distribution depends on the stats only through
    the fields ["option:" + o] of the declared options [o]: two stores with
    the same respondent count that agree on these fields give the same
    result, whatever else they hold (fields of undeclared options,
    ["combo:"] fields, values that are no numbers). *)
Theorem single_choice_ignores_other_fields {A V : Type} (py_int : V -> option Z)
    (redis1 redis2 : @RedisManager A V) (QUESTIONS : gmap string question_config)
    (question_id : string) (cfg : question_config) :
  QUESTIONS !! question_id = Some cfg →
  cfg_type cfg = SINGLE_CHOICE →
  question_respondent_count redis1 question_id
    = question_respondent_count redis2 question_id →
  (∀ o, o ∈ default [] (cfg_options cfg) →
        question_stats redis1 question_id !! ("option:" +:+ o)
          = question_stats redis2 question_id !! ("option:" +:+ o)) →
  run (get_question_distribution py_int redis1 QUESTIONS question_id)
    = run (get_question_distribution py_int redis2 QUESTIONS question_id).
Proof.
  intros Hq Hty Hcount Hagree.
  rewrite !(get_question_distribution_run _ _ _ _ cfg Hq).
  unfold distribution_of. rewrite Hcount, Hty.
  destruct (0 <? _); [|done].
  rewrite bool_decide_eq_true_2 by (by left).
  rewrite !tally_unfold.
  change (effective_options SINGLE_CHOICE ?o ?s) with o.
  change (prefix_of SINGLE_CHOICE) with "option:".
  by rewrite (vote_loop_ext py_int _ (question_stats redis2 question_id)).
Qed.

Lemma single_choice_ignores_other_fields_witness :
  run (get_question_distribution digits_int noisy_text_store Sample.catalog "q1")
    = run (get_question_distribution digits_int clean_text_store Sample.catalog "q1").
Proof.
  apply (single_choice_ignores_other_fields digits_int noisy_text_store
           clean_text_store Sample.catalog "q1"
           {| cfg_type := SINGLE_CHOICE; cfg_label := "District";
              cfg_options := Some ["a"; "b"] |}).
  - reflexivity.
  - reflexivity.
  - reflexivity.
  - intros o Ho. simpl in Ho.
    apply elem_of_cons in Ho as [->|Ho]; [reflexivity|].
    apply elem_of_cons in Ho as [->|Ho]; [reflexivity|].
    by apply elem_of_nil in Ho.
Defined.

(** X10: when no stats key that starts with ["combo:"] holds that text a
    second time, a COMBINATION distribution that is returned has exactly the
    prefix-stripped keys as its options, and the entry of each is the
    percentage of the count stored under its own key. *)
Theorem combination_clean_keys {A V : Type} (py_int : V -> option Z)
    (redis : @RedisManager A V) (QUESTIONS : gmap string question_config)
    (question_id : string) (cfg : question_config)
    (r : DistributionResponse) (t : list event) :
  QUESTIONS !! question_id = Some cfg →
  cfg_type cfg = COMBINATION →
  0 < question_respondent_count redis question_id →
  let stats := question_stats redis question_id in
  let total := question_respondent_count redis question_id in
  (∀ k, is_Some (stats !! k) → PyStr.startswith k "combo:" = true →
        str_occurs "combo:" (PyStr.drop_chars 6 k) = false) →
  run (get_question_distribution py_int redis QUESTIONS question_id) = (Return r, t) →
  dom (distribution r) = prefix_stripped_options stats "combo:"
  ∧ ∀ k v, stats !! k = Some v → PyStr.startswith k "combo:" = true →
           distribution r !! PyStr.removeprefix k "combo:"
             = py_int v ≫= percent_of total.
Proof.
  intros Hq Hty Hpos stats total Hclean.
  rewrite (get_question_distribution_run _ _ _ _ cfg Hq).
  unfold distribution_of. fold stats total.
  replace (0 <? total) with true by (symmetry; apply Z.ltb_lt; lia).
  rewrite bool_decide_eq_true_2 by (by right). rewrite Hty.
  destruct (tally _ _ _ _ _ _) as [[d|e] t'] eqn:Htally; [|done].
  intros [= <- <-]. simpl.
  apply tally_Return in Htally as [Hall Hd].
  change (prefix_of COMBINATION) with "combo:" in Hall, Hd.
  assert (Hopts : effective_options COMBINATION (default [] (cfg_options cfg)) stats
                  = (fun k => PyStr.removeprefix k "combo:")
                      <$> filter (fun k => PyStr.startswith k "combo:" = true)
                                 (map_to_list stats).*1).
  { change (effective_options COMBINATION (default [] (cfg_options cfg)) stats)
      with (discovered_options stats "combo:").
    unfold discovered_options. apply list_fmap_ext. intros i k Hk.
    apply list_elem_of_lookup_2, list_elem_of_filter in Hk as [Hpre Hin].
    apply list_elem_of_fmap in Hin as ([k' v] & -> & Hin).
    apply elem_of_map_to_list in Hin. simpl in *.
    apply replace_strips_prefix; [done|done|].
    apply Hclean; [by eexists|done]. }
  rewrite Hopts in Hall, Hd. split.
  - unfold prefix_stripped_options. apply set_eq. intros o.
    rewrite elem_of_dom, elem_of_list_to_set, Hd.
    destruct (decide (o ∈ _)) as [Ho|Ho]; [|split; [by intros [? ?]|done]].
    split; [done|]. intros _. by apply Hall.
  - intros k v Hk Hpre. rewrite Hd, decide_True.
    + unfold entry_of, count_of, PyStr.removeprefix.
      unfold PyStr.startswith in Hpre. rewrite Hpre.
      rewrite (prefix_drop_chars "combo:" k Hpre), Hk. done.
    + apply list_elem_of_fmap. exists k. split; [done|].
      apply list_elem_of_filter. split; [done|].
      apply list_elem_of_fmap. exists (k, v). split; [done|].
      by apply elem_of_map_to_list.
Qed.

Lemma combination_clean_keys_witness :
  ∃ r t, run (get_question_distribution Some dishes_store Sample.catalog "q2")
           = (Return r, t)
         ∧ dom (distribution r) = {[ "hotpot"; "noodles,hotpot" ]}
         ∧ distribution r !! "hotpot" = Some "75.00%".
Proof.
  destruct (run (get_question_distribution Some dishes_store Sample.catalog "q2"))
    as [[r|e] t] eqn:Hrun; [|vm_compute in Hrun; discriminate].
  exists r, t. split; [reflexivity|].
  destruct (combination_clean_keys Some dishes_store Sample.catalog "q2"
              {| cfg_type := COMBINATION; cfg_label := "Dishes";
                 cfg_options := None |} r t)
    as [Hdom Hentry].
  - reflexivity.
  - reflexivity.
  - reflexivity.
  - intros k [v Hk] Hpre. simpl in Hk.
    apply lookup_insert_Some in Hk as [[<- _]|[_ Hk]]; [reflexivity|].
    apply lookup_insert_Some in Hk as [[<- _]|[_ Hk]]; [reflexivity|].
    apply lookup_singleton_Some in Hk as [<- _]. discriminate.
  - exact Hrun.
  - split.
    + rewrite Hdom. vm_compute. reflexivity.
    + apply (Hentry "combo:hotpot" 3); reflexivity.
Defined.

(** X11: when the stored count of an option that is to be reported does
    not convert with [int], the request fails with [ValueError], and it
    does so before any division: the first loop converts every count before
    the second loop starts. *)
Theorem unconvertible_count_raises {A V : Type} (py_int : V -> option Z)
    (redis : @RedisManager A V) (QUESTIONS : gmap string question_config)
    (question_id : string) (cfg : question_config) (o : string) (v : V) :
  QUESTIONS !! question_id = Some cfg →
  cfg_type cfg = SINGLE_CHOICE ∨ cfg_type cfg = COMBINATION →
  0 < question_respondent_count redis question_id →
  let stats := question_stats redis question_id in
  o ∈ effective_options (cfg_type cfg) (default [] (cfg_options cfg)) stats →
  stats !! (prefix_of (cfg_type cfg) +:+ o) = Some v →
  py_int v = None →
  run (get_question_distribution py_int redis QUESTIONS question_id)
    = (Raise ValueError,
       [ReadQuestionStats question_id; ReadRespondentCount question_id]).
Proof.
  intros Hq Hty Hpos stats Ho Hv Hbad.
  rewrite (get_question_distribution_run _ _ _ _ cfg Hq).
  unfold distribution_of. fold stats.
  replace (0 <? _) with true by (symmetry; apply Z.ltb_lt; lia).
  rewrite bool_decide_eq_true_2 by done.
  rewrite tally_unfold, vote_loop_fails; [done|].
  exists o. split; [done|]. unfold count_of. by rewrite Hv.
Qed.

Lemma unconvertible_count_raises_witness :
  run (get_question_distribution digits_int text_store Sample.catalog "q1")
    = (Raise ValueError, [ReadQuestionStats "q1"; ReadRespondentCount "q1"]).
Proof.
  apply (unconvertible_count_raises digits_int text_store Sample.catalog "q1"
           {| cfg_type := SINGLE_CHOICE; cfg_label := "District";
              cfg_options := Some ["a"; "b"] |} "b" "n/a").
  - reflexivity.
  - by left.
  - reflexivity.
  - simpl. apply elem_of_cons. right. apply elem_of_cons. by left.
  - reflexivity.
  - reflexivity.
Defined.

(** X12: a SINGLE_CHOICE question without ['options'] in the catalog (or
    with an empty list), and a COMBINATION question whose stats hold no key
    starting with ["combo:"], get the empty distribution even when they have
    respondents, without error and without division. *)
Theorem no_options_empty_distribution {A V : Type} (py_int : V -> option Z)
    (redis : @RedisManager A V) (QUESTIONS : gmap string question_config)
    (question_id : string) (cfg : question_config) :
  QUESTIONS !! question_id = Some cfg →
  (cfg_type cfg = SINGLE_CHOICE ∧ default [] (cfg_options cfg) = [])
  ∨ (cfg_type cfg = COMBINATION
     ∧ ∀ k, is_Some (question_stats redis question_id !! k) →
            PyStr.startswith k "combo:" = false) →
  run (get_question_distribution py_int redis QUESTIONS question_id)
    = (Return {| dr_question_id := question_id;
                 dr_label := cfg_label cfg;
                 total_respondents := question_respondent_count redis question_id;
                 distribution := ∅ |},
       [ReadQuestionStats question_id; ReadRespondentCount question_id]).
Proof.
  intros Hq Hnone. rewrite (get_question_distribution_run _ _ _ _ cfg Hq).
  unfold distribution_of. destruct (0 <? _); [|done].
  assert (effective_options (cfg_type cfg) (default [] (cfg_options cfg))
            (question_stats redis question_id) = []) as Hopts.
  { destruct Hnone as [[-> ->]|[-> Hkeys]]; [done|].
    change (effective_options COMBINATION ?o ?s) with (discovered_options s "combo:").
    unfold discovered_options.
    assert (filter (fun k => PyStr.startswith k "combo:" = true)
              (map_to_list (question_stats redis question_id)).*1 = []) as ->; [|done].
    apply elem_of_nil_inv. intros k [Hpre Hin]%list_elem_of_filter.
    apply list_elem_of_fmap in Hin as ([k' v] & -> & Hin).
    apply elem_of_map_to_list in Hin. simpl in *.
    rewrite Hkeys in Hpre; [done|by eexists]. }
  rewrite bool_decide_eq_true_2 by (destruct Hnone as [[? _]|[? _]]; auto).
  rewrite tally_unfold, Hopts. simpl. by rewrite map_to_list_empty.
Qed.

Lemma no_options_empty_distribution_witness :
  run (get_question_distribution Some Sample.store bare_catalog "q1")
    = (Return {| dr_question_id := "q1"; dr_label := "District";
                 total_respondents := 2; distribution := ∅ |},
       [ReadQuestionStats "q1"; ReadRespondentCount "q1"]).
Proof.
  apply (no_options_empty_distribution Some Sample.store bare_catalog "q1"
           {| cfg_type := SINGLE_CHOICE; cfg_label := "District";
              cfg_options := None |}).
  - reflexivity.
  - left. split; reflexivity.
Defined.

(** ** The range of a percentage *)

Lemma ilog2_frac_same c : 0 < c → PyFloat.ilog2_frac c c = 0.
Proof.
  intros Hc. unfold PyFloat.ilog2_frac. rewrite Z.sub_diag.
  change (0 <=? 0) with true. cbv beta iota. change (2 ^ 0) with 1.
  replace (c * 1 <=? c) with true; [done|]. symmetry. apply Z.leb_le. lia.
Qed.

Lemma round_binary64_same c :
  0 < c → PyFloat.round_binary64 false c c = PyFloat.Finite false (2 ^ 52) (-52).
Proof.
  intros Hc. unfold PyFloat.round_binary64.
  replace (c =? 0) with false by (symmetry; apply Z.eqb_neq; lia).
  rewrite ilog2_frac_same by done.
  change (Z.max (0 - 52) (-1074)) with (-52).
  unfold PyFloat.scale2. change (0 <=? -52) with false. cbv beta iota.
  change (2 ^ (- -52)) with (2 ^ 52). rewrite (Z.mul_comm c).
  rewrite rne_exact by lia. reflexivity.
Qed.

(** A count between zero and the respondent count is printed as a number
    of hundredths between 0 and 10000. *)
Lemma percent_of_in_range (count total : Z) :
  0 < total →
  0 ≤ count ≤ total →
  ∃ h, percent_of total count = Some (PyFloat.two_decimals h +:+ "%")
       ∧ 0 ≤ h ≤ 10000.
Proof.
  intros Hpos Hrange.
  destruct (percent_accuracy count total Hrange Hpos) as (Hs & Hh & Herr).
  exists (percent_hundredths count total). split; [done|]. split; [done|].
  apply Qabs_Qle_condition in Herr as [_ Hhi].
  assert (PyFloat.frac count total <= 1)%Q as Hx.
  { unfold PyFloat.frac. apply Qle_shift_div_r; [by apply inject_Z_pos|].
    rewrite Qmult_1_l, <- Zle_Qle. lia. }
  assert (inject_Z (percent_hundredths count total) < inject_Z 10001)%Q as Hlt.
  { change (inject_Z 10001) with 10001%Q.
    change (1 # 2 ^ 38)%Q with (1 # 274877906944)%Q in Hhi. lra. }
  rewrite <- Zlt_Qlt in Hlt. lia.
Qed.

(** X13: for a count between zero and a positive respondent count the
    entry is a two-decimal text between 0.00 and 100.00; a count of zero
    prints ["0.00%"] and a count equal to the respondent count prints
    ["100.00%"], whatever that count is. *)
Theorem percentage_range (count total : Z) :
  0 < total →
  0 ≤ count ≤ total →
  (∃ h, percent_of total count = Some (PyFloat.two_decimals h +:+ "%")
        ∧ 0 ≤ h ≤ 10000)
  ∧ percent_of total 0 = Some "0.00%"
  ∧ percent_of total total = Some "100.00%".
Proof.
  intros Hpos Hrange. split; [|split].
  - by apply percent_of_in_range.
  - by apply percent_of_zero.
  - unfold percent_of, int_true_div.
    replace (total =? 0) with false by (symmetry; apply Z.eqb_neq; lia).
    replace (total <? 0) with false by (symmetry; apply Z.ltb_ge; lia).
    rewrite !Z.abs_eq by lia. simpl xorb.
    rewrite round_binary64_same by done. reflexivity.
Qed.

Lemma percentage_range_witness :
  (∃ h, percent_of 3 1 = Some (PyFloat.two_decimals h +:+ "%") ∧ 0 ≤ h ≤ 10000)
  ∧ percent_of 3 0 = Some "0.00%"
  ∧ percent_of 3 3 = Some "100.00%".
Proof. apply (percentage_range 1 3); lia. Defined.

(** X14: when every count to be reported converts with [int] to a number
    between zero and the respondent count, a SINGLE_CHOICE or COMBINATION
    request returns, and every entry of its distribution is a two-decimal
    text between 0.00 and 100.00. *)
Theorem in_range_counts_return {A V : Type} (py_int : V -> option Z)
    (redis : @RedisManager A V) (QUESTIONS : gmap string question_config)
    (question_id : string) (cfg : question_config) :
  QUESTIONS !! question_id = Some cfg →
  cfg_type cfg = SINGLE_CHOICE ∨ cfg_type cfg = COMBINATION →
  0 < question_respondent_count redis question_id →
  let stats := question_stats redis question_id in
  let total := question_respondent_count redis question_id in
  (∀ o, o ∈ effective_options (cfg_type cfg) (default [] (cfg_options cfg)) stats →
        ∃ c, count_of py_int stats (prefix_of (cfg_type cfg)) o = Some c
             ∧ 0 ≤ c ≤ total) →
  ∃ r t, run (get_question_distribution py_int redis QUESTIONS question_id)
           = (Return r, t)
         ∧ ∀ o s, distribution r !! o = Some s →
                  ∃ h, s = PyFloat.two_decimals h +:+ "%" ∧ 0 ≤ h ≤ 10000.
Proof.
  intros Hq Hty Hpos stats total Hcounts.
  assert (Hentry : ∀ o,
            o ∈ effective_options (cfg_type cfg) (default [] (cfg_options cfg)) stats →
            ∃ h, entry_of py_int stats (prefix_of (cfg_type cfg)) total o
                 = Some (PyFloat.two_decimals h +:+ "%") ∧ 0 ≤ h ≤ 10000).
  { intros o Ho. destruct (Hcounts o Ho) as (c & Hc & Hrange).
    destruct (percent_of_in_range c total Hpos Hrange) as (h & Hh & Hbound).
    exists h. split; [|done]. unfold entry_of. by rewrite Hc. }
  rewrite (get_question_distribution_run _ _ _ _ cfg Hq).
  unfold distribution_of. fold stats total.
  replace (0 <? total) with true by (symmetry; apply Z.ltb_lt; lia).
  rewrite bool_decide_eq_true_2 by done.
  destruct (tally_total py_int (cfg_type cfg) (default [] (cfg_options cfg)) stats
              total (reads question_id)) as (d & t & Htally).
  { intros o Ho. destruct (Hentry o Ho) as (h & -> & _). by eexists. }
  rewrite Htally. eexists _, _. split; [done|]. simpl.
  apply tally_Return in Htally as [_ Hd]. intros o s Hs. rewrite Hd in Hs.
  destruct (decide _) as [Ho|]; [|done].
  destruct (Hentry o Ho) as (h & Hh & Hbound). rewrite Hh in Hs.
  injection Hs as <-. by exists h.
Qed.

Lemma in_range_counts_return_witness :
  ∃ r t, run (get_question_distribution Some Sample.store Sample.catalog "q1")
           = (Return r, t)
         ∧ ∀ o s, distribution r !! o = Some s →
                  ∃ h, s = PyFloat.two_decimals h +:+ "%" ∧ 0 ≤ h ≤ 10000.
Proof.
  apply (in_range_counts_return Some Sample.store Sample.catalog "q1"
           {| cfg_type := SINGLE_CHOICE; cfg_label := "District";
              cfg_options := Some ["a"; "b"] |}).
  - reflexivity.
  - by left.
  - reflexivity.
  - intros o Ho. simpl in Ho.
    apply elem_of_cons in Ho as [->|Ho]; [exists 1; by split|].
    apply elem_of_cons in Ho as [->|Ho]; [exists 1; by split|].
    by apply elem_of_nil in Ho.
Defined.
